(** * GramSense ASR engine: tokenizer and Whisper adapter

    A shallow embedding of [ml/asr-engine/core/tokenizer.py] and
    [ml/asr-engine/core/whisper.py], followed by the properties of the
    feature extractor, the tokenizer, the greedy decoding loop and the
    transcription entry points. *)

From Stdlib Require Import ZArith NArith QArith Qround Bool Ascii String Lia List.
Import ListNotations.
Open Scope Z_scope.

(** ** Python values *)

(** A Python [str] is a sequence of Unicode code points. *)
Module PyStr.

Definition char := N.
Definition str := list char.

(** ASCII literals of the source. *)
Definition lit (s : string) : str :=
  map N_of_ascii (list_ascii_of_string s).

Fixpoint eqb (a b : str) : bool :=
  match a, b with
  | [], [] => true
  | x :: a', y :: b' => N.eqb x y && eqb a' b'
  | _, _ => false
  end.

(** Truth value of a string: non-empty. *)
Definition truthy (s : str) : bool :=
  match s with [] => false | _ :: _ => true end.

(** [str.isspace] on one code point: the characters [str.strip()]
    removes when called without argument. *)
Definition isspace (c : char) : bool :=
  (((9 <=? c) && (c <=? 13)) || ((28 <=? c) && (c <=? 32))
   || (c =? 133) || (c =? 160) || (c =? 5760)
   || ((8192 <=? c) && (c <=? 8202))
   || (c =? 8232) || (c =? 8233) || (c =? 8239) || (c =? 8287)
   || (c =? 12288))%N.

Fixpoint lstrip (s : str) : str :=
  match s with
  | [] => []
  | c :: s' => if isspace c then lstrip s' else s
  end.

Definition rstrip (s : str) : str := rev (lstrip (rev s)).

Definition strip (s : str) : str := rstrip (lstrip s).

(** [s.replace(old, new)] for one-character [old] and [new]. *)
Definition replace1 (old new : char) (s : str) : str :=
  map (fun c => if N.eqb c old then new else c) s.

(** [''.join(parts)] *)
Definition join (parts : list str) : str := concat parts.

End PyStr.

(** A Python [dict]: insertion-ordered, one binding per key.  Assigning
    to a key that is present keeps its position. *)
Module PyDict.
Section Dict.
Variables K V : Type.
Variable keqb : K -> K -> bool.

Definition dict := list (K * V).

Fixpoint get (d : dict) (k : K) : option V :=
  match d with
  | [] => None
  | (k', v) :: d' => if keqb k k' then Some v else get d' k
  end.

(** [d.get(k, default)] *)
Definition get_or (d : dict) (k : K) (default : V) : V :=
  match get d k with Some v => v | None => default end.

(** [d[k] = v] *)
Fixpoint set (d : dict) (k : K) (v : V) : dict :=
  match d with
  | [] => [(k, v)]
  | (k', v') :: d' =>
      if keqb k k' then (k', v) :: d' else (k', v') :: set d' k v
  end.

(** A dict display [{k1: v1, k2: v2, ...}], or a JSON object read by
    [json.load]: later duplicates overwrite. *)
Definition of_pairs (l : list (K * V)) : dict :=
  fold_left (fun d kv => set d (fst kv) (snd kv)) l [].

Definition keys (d : dict) : list K := map fst d.
Definition values (d : dict) : list V := map snd d.
Definition items (d : dict) : list (K * V) := d.
Definition len (d : dict) : Z := Z.of_nat (length d).
End Dict.

Arguments get {K V} keqb d k.
Arguments get_or {K V} keqb d k default.
Arguments set {K V} keqb d k v.
Arguments of_pairs {K V} keqb l.
Arguments keys {K V} d.
Arguments values {K V} d.
Arguments items {K V} d.
Arguments len {K V} d.
End PyDict.

(** Python exceptions raised on the modelled paths. *)
Inductive exn : Type :=
| ImportError               (* onnxruntime missing *)
| FileNotFoundError         (* encoder or decoder file absent *)
| NotLoaded                 (* RuntimeError("Models not loaded. Call load() first.") *)
| ValueError                (* np.frombuffer on a buffer of odd size *)
| AttributeError            (* method call on a tokenizer that is None *)
| ExternalError.            (* raised inside an external call *)

Inductive result (A : Type) : Type :=
| Ok (a : A)
| Raise (e : exn).
Arguments Ok {A} a.
Arguments Raise {A} e.

(** ** tokenizer.py: the merge rules

    The value [_load_tokenizer] assigns to [self.merges] for the text
    of [merges.txt]:
    [lines = f.read().strip().split('\n')[1:]], then
    [[tuple(line.split()) for line in lines if line.strip()]]. *)
Module Merges.
Import PyStr.

Definition LF : char := 10%N.          (* the separator of [split('\n')] *)

(** [s.split(sep)] for a one-character separator. *)
Fixpoint split_on (sep : char) (s : str) : list str :=
  match s with
  | [] => [[]]
  | c :: s' =>
      if N.eqb c sep then [] :: split_on sep s'
      else
        match split_on sep s' with
        | [] => [[c]]
        | field :: fields => (c :: field) :: fields
        end
  end.

(** [s.split()]: the maximal runs of characters that are not
    whitespace.  [cur] is the run being read, last character first. *)
Fixpoint split_ws (cur : str) (s : str) : list str :=
  match s with
  | [] => if truthy cur then [rev cur] else []
  | c :: s' =>
      if isspace c then
        if truthy cur then rev cur :: split_ws [] s' else split_ws [] s'
      else split_ws (c :: cur) s'
  end.

Definition split (s : str) : list str := split_ws [] s.

(** No character of [piece] is whitespace. *)
Definition no_space (piece : str) : bool :=
  forallb (fun c => negb (isspace c)) piece.

Definition parse_merges (content : str) : list (list str) :=
  let lines := tl (split_on LF (strip content)) in
  map split (filter (fun line => truthy (strip line)) lines).

End Merges.

(** ** tokenizer.py *)
Module Tokenizer.
Import PyStr.

Definition EOT_TOKEN : Z := 50257.
Definition SOT_TOKEN : Z := 50258.
Definition TRANSLATE_TOKEN : Z := 50358.
Definition TRANSCRIBE_TOKEN : Z := 50359.
Definition NO_TIMESTAMPS_TOKEN : Z := 50363.
Definition TIMESTAMP_BEGIN : Z := 50364.

Definition LANGUAGES_display : list (string * Z) :=
  [ ("en", 50259); ("zh", 50260); ("de", 50261); ("es", 50262); ("ru", 50263);
    ("ko", 50264); ("fr", 50265); ("ja", 50266); ("pt", 50267); ("tr", 50268);
    ("pl", 50269); ("ca", 50270); ("nl", 50271); ("ar", 50272); ("sv", 50273);
    ("it", 50274); ("id", 50275); ("hi", 50276); ("fi", 50277); ("vi", 50278);
    ("he", 50279); ("uk", 50280); ("el", 50281); ("ms", 50282); ("cs", 50283);
    ("ro", 50284); ("da", 50285); ("hu", 50286); ("ta", 50287); ("no", 50288);
    ("th", 50289); ("ur", 50290); ("hr", 50291); ("bg", 50292); ("lt", 50293);
    ("la", 50294); ("mi", 50295); ("ml", 50296); ("cy", 50297); ("sk", 50298);
    ("te", 50299); ("fa", 50300); ("lv", 50301); ("bn", 50302); ("sr", 50303);
    ("az", 50304); ("sl", 50305); ("kn", 50306); ("et", 50307); ("mk", 50308);
    ("br", 50309); ("eu", 50310); ("is", 50311); ("hy", 50312); ("ne", 50313);
    ("mn", 50314); ("bs", 50315); ("kk", 50316); ("sq", 50317); ("sw", 50318);
    ("gl", 50319); ("mr", 50320); ("pa", 50321); ("si", 50322); ("km", 50323);
    ("sn", 50324); ("yo", 50325); ("so", 50326); ("af", 50327); ("oc", 50328);
    ("ka", 50329); ("be", 50330); ("tg", 50331); ("sd", 50332); ("gu", 50333);
    ("am", 50334); ("yi", 50335); ("lo", 50336); ("uz", 50337); ("fo", 50338);
    ("ht", 50339); ("ps", 50340); ("tk", 50341); ("nn", 50342); ("mt", 50343);
    ("sa", 50344); ("lb", 50345); ("my", 50346); ("bo", 50347); ("tl", 50348);
    ("mg", 50349); ("as", 50350); ("tt", 50351); ("haw", 50352); ("ln", 50353);
    ("ha", 50354); ("ba", 50355); ("jw", 50356); ("su", 50357) ]%string.

(** The class attribute [LANGUAGES]. *)
Definition LANGUAGES : PyDict.dict str Z :=
  PyDict.of_pairs eqb (map (fun kv => (lit (fst kv), snd kv)) LANGUAGES_display).

(** What [_load_tokenizer] finds for [vocab.json] in the model
    directory: no file, a file [json.load] rejects, or the members of
    the JSON object in file order. *)
Inductive vocab_file : Type :=
| Missing
| Malformed
| Parsed (members : list (str * Z)).

(** What it finds for [merges.txt]: no file, a file that cannot be
    opened or decoded, or the text [f.read()] returns. *)
Inductive merges_file : Type :=
| NoMerges
| UnreadableMerges
| MergesText (content : str).

Record WhisperTokenizer : Type := {
  vocab : PyDict.dict str Z;
  inv_vocab : PyDict.dict Z str;
  merges : list (list str)
}.

(** [{v: k for k, v in self.vocab.items()}] *)
Definition invert (d : PyDict.dict str Z) : PyDict.dict Z str :=
  PyDict.of_pairs Z.eqb (map (fun kv => (snd kv, fst kv)) (PyDict.items d)).

(** The second half of [_load_tokenizer], on the fields the first half
    has set. *)
Definition load_merges (v : PyDict.dict str Z) (inv : PyDict.dict Z str)
           (m : merges_file) : result WhisperTokenizer :=
  match m with
  | NoMerges => Ok {| vocab := v; inv_vocab := inv; merges := [] |}
  | UnreadableMerges => Raise ExternalError
  | MergesText content =>
      Ok {| vocab := v; inv_vocab := inv; merges := Merges.parse_merges content |}
  end.

(** [__init__] with [_load_tokenizer]: the vocabulary first, then the
    merge rules; either file may be absent, and an exception while
    reading either one leaves [__init__]. *)
Definition _load_tokenizer (f : vocab_file) (m : merges_file)
  : result WhisperTokenizer :=
  match f with
  | Missing => load_merges [] [] m
  | Malformed => Raise ExternalError
  | Parsed members =>
      let v := PyDict.of_pairs eqb members in
      load_merges v (invert v) m
  end.

Definition eot_key : str := lit "<|endoftext|>".

Definition encode (self : WhisperTokenizer) (text : str) : list Z :=
  map (fun char =>
         PyDict.get_or eqb (vocab self) [char]
           (PyDict.get_or eqb (vocab self) eot_key 0))
      text.

(** The loop of [decode]: the token strings collected in [tokens]. *)
Fixpoint decode_tokens (self : WhisperTokenizer) (skip_special_tokens : bool)
         (token_ids : list Z) : list str :=
  match token_ids with
  | [] => []
  | token_id :: rest =>
      if skip_special_tokens && (SOT_TOKEN <=? token_id) then
        decode_tokens self skip_special_tokens rest            (* continue *)
      else if skip_special_tokens && (token_id =? EOT_TOKEN) then
        []                                                     (* break *)
      else
        let token_str := PyDict.get_or Z.eqb (inv_vocab self) token_id [] in
        if truthy token_str
        then token_str :: decode_tokens self skip_special_tokens rest
        else decode_tokens self skip_special_tokens rest
  end.

Definition G_DOT : char := 288%N.    (* U+0120, GPT-2 space prefix *)
Definition C_DOT : char := 266%N.    (* U+010A, newline marker *)
Definition SPACE : char := 32%N.
Definition NEWLINE : char := 10%N.

Definition decode (self : WhisperTokenizer) (token_ids : list Z)
           (skip_special_tokens : bool) : str :=
  let text := join (decode_tokens self skip_special_tokens token_ids) in
  let text := replace1 G_DOT SPACE text in
  let text := replace1 C_DOT NEWLINE text in
  strip text.

(** [self.LANGUAGES['en']]: a subscript; ['en'] is a key of the
    display, so the [KeyError] branch is never taken. *)
Definition LANGUAGES_en : Z :=
  match PyDict.get eqb LANGUAGES (lit "en") with Some v => v | None => 0 end.

Definition get_language_token (language : str) : Z :=
  PyDict.get_or eqb LANGUAGES language LANGUAGES_en.

Definition build_decoder_input (language task : str) (no_timestamps : bool)
  : list Z :=
  let tokens := [SOT_TOKEN] in
  let tokens := tokens ++ [get_language_token language] in
  let tokens :=
    if eqb task (lit "translate")
    then tokens ++ [TRANSLATE_TOKEN]
    else tokens ++ [TRANSCRIBE_TOKEN] in
  let tokens :=
    if no_timestamps then tokens ++ [NO_TIMESTAMPS_TOKEN] else tokens in
  tokens.

End Tokenizer.

(** ** whisper.py *)

(** The numeric kernel the adapter takes from NumPy and from the clock:
    floating-point samples and their operations, the Hann window, the
    real FFT, the bin edges of the mel filters, and [time.perf_counter].
    The adapter's own code (padding, framing, matrix shapes, control
    flow) is written out over this interface. *)
Class Runtime : Type := {
  float : Type;
  complex : Type;
  hidden : Type;                              (* encoder output tensor *)
  f_lit : Q -> float;                         (* a float literal *)
  f_of_Z : Z -> float;
  fadd : float -> float -> float;
  fsub : float -> float -> float;
  fmul : float -> float -> float;
  fdiv : float -> float -> float;
  fmax : float -> float -> float;             (* np.maximum *)
  fltb : float -> float -> bool;
  flog10 : float -> float;
  to_f32 : float -> float;                    (* astype(np.float32) *)
  hann_coef : nat -> nat -> float;            (* np.hanning(M)[k] *)
  rfft_bin : nat -> list float -> complex;    (* np.fft.rfft(x)[k] *)
  c_zero : complex;
  abs2 : complex -> float;                    (* np.abs(z) ** 2 *)
  mel_bin_edges : Z -> Z -> Z -> list Z;      (* [bins] of the filterbank *)
  perf_counter : nat -> float;                (* the n-th clock reading *)
  ms_between : float -> float -> Z            (* int((t1 - t0) * 1000) *)
}.

Module Whisper.
Import PyStr Tokenizer.

Section Adapter.
Context {R : Runtime}.

Definition matrix := list (list float).

(** [self.sample_rate] and [self.languages]: assigned once by
    [__init__], from constants. *)
Definition sample_rate : Z := 16000.

Definition languages : PyDict.dict str str :=
  PyDict.of_pairs eqb
    (map (fun kv => (lit (fst kv), lit (snd kv)))
       [ ("en", "English"); ("hi", "Hindi"); ("ta", "Tamil");
         ("te", "Telugu"); ("es", "Spanish"); ("fr", "French");
         ("de", "German"); ("zh", "Chinese") ]%string).

(** *** External sessions *)

Inductive dim : Type :=
| DimInt (n : Z)
| DimOther.                               (* a symbolic or unknown axis *)

Record EncoderSession : Type := {
  (** [get_inputs()[0].shape]; [None] when the probe raises or the
      shape is no list. *)
  enc_input_shape : option (list dim);
  enc_run : matrix -> result hidden
}.

Record DecoderSession : Type := {
  (** [run(None, inputs)[0][0, -1, :]]: the logits at the last
      position, for the token ids and the encoder output bound to
      the session's inputs. *)
  dec_run : list Z -> hidden -> result (list float)
}.

Record WhisperASR : Type := {
  model_path : str;
  decoder_path : str;
  use_quantized : bool;
  _encoder_session : option EncoderSession;
  _decoder_session : option DecoderSession;
  _tokenizer : option WhisperTokenizer;
  _expected_frames : option Z
}.

Definition __init__ (model_path decoder_path : str) (use_quantized : bool)
  : WhisperASR :=
  {| model_path := model_path;
     decoder_path := decoder_path;
     use_quantized := use_quantized;
     _encoder_session := None;
     _decoder_session := None;
     _tokenizer := None;
     _expected_frames := None |}.

(** *** load *)

Record LoadEnv : Type := {
  onnxruntime_installed : bool;
  path_exists : str -> bool;
  new_encoder_session : str -> result EncoderSession;
  new_decoder_session : str -> result DecoderSession;
  parent : str -> str;                    (* Path(p).parent *)
  vocab_json : str -> vocab_file;         (* <dir>/vocab.json *)
  merges_txt : str -> merges_file         (* <dir>/merges.txt *)
}.

Definition probe_expected_frames (enc : EncoderSession) : Z :=
  match enc_input_shape enc with
  | Some (_ :: _ :: DimInt n :: _) => n
  | _ => 3000
  end.

(** [load] assigns the fields one after the other; an exception
    leaves the assignments made so far in place. *)
Definition load (env : LoadEnv) (self : WhisperASR)
  : WhisperASR * result bool :=
  if negb (onnxruntime_installed env) then (self, Raise ImportError)
  else if negb (path_exists env (model_path self)) then
    (self, Raise FileNotFoundError)
  else if negb (path_exists env (decoder_path self)) then
    (self, Raise FileNotFoundError)
  else
    match new_encoder_session env (model_path self) with
    | Raise e => (self, Raise e)
    | Ok enc =>
        let self1 :=
          {| model_path := model_path self;
             decoder_path := decoder_path self;
             use_quantized := use_quantized self;
             _encoder_session := Some enc;
             _decoder_session := _decoder_session self;
             _tokenizer := _tokenizer self;
             _expected_frames := _expected_frames self |} in
        match new_decoder_session env (decoder_path self) with
        | Raise e => (self1, Raise e)
        | Ok dec =>
            let self2 :=
              {| model_path := model_path self;
                 decoder_path := decoder_path self;
                 use_quantized := use_quantized self;
                 _encoder_session := Some enc;
                 _decoder_session := Some dec;
                 _tokenizer := _tokenizer self;
                 _expected_frames := _expected_frames self |} in
            match _load_tokenizer (vocab_json env (parent env (model_path self)))
                              (merges_txt env (parent env (model_path self))) with
            | Raise e => (self2, Raise e)
            | Ok tok =>
                ({| model_path := model_path self;
                    decoder_path := decoder_path self;
                    use_quantized := use_quantized self;
                    _encoder_session := Some enc;
                    _decoder_session := Some dec;
                    _tokenizer := Some tok;
                    _expected_frames := Some (probe_expected_frames enc) |},
                 Ok true)
            end
        end
    end.

Definition is_raise {A : Type} (r : result A) : bool :=
  match r with Raise _ => true | Ok _ => false end.

(** Whether [load] stops before it has assigned both sessions: at the
    import, at a missing file, or inside a session constructor. *)
Definition stops_before_sessions (env : LoadEnv) (self : WhisperASR) : bool :=
  negb (onnxruntime_installed env)
  || negb (path_exists env (model_path self))
  || negb (path_exists env (decoder_path self))
  || is_raise (new_encoder_session env (model_path self))
  || is_raise (new_decoder_session env (decoder_path self)).

(** The engine after [load] has been called in each of [envs], in
    order, whatever the outcomes. *)
Definition after_loads (envs : list LoadEnv) (self : WhisperASR) : WhisperASR :=
  fold_left (fun s env => fst (load env s)) envs self.

(** *** Feature extraction *)

Definition zero : float := f_lit 0.

(** "Pad/trim to 30 seconds": [np.pad(audio, (0, k))] or
    [audio[:target_length]]. *)
Definition pad_or_trim (target_length : Z) (audio : list float) : list float :=
  if Z.of_nat (length audio) <? target_length
  then audio ++ repeat zero (Z.to_nat (target_length - Z.of_nat (length audio)))
  else firstn (Z.to_nat target_length) audio.

(** [np.hanning(M)] *)
Definition hanning (M : nat) : list float := map (hann_coef M) (seq 0 M).

(** [np.fft.rfft(x)]: [len(x) // 2 + 1] bins. *)
Definition rfft (x : list float) : list complex :=
  map (fun k => rfft_bin k x) (seq 0 (Nat.div (length x) 2 + 1)).

(** [a * b] on arrays of one length. *)
Fixpoint mul (a b : list float) : list float :=
  match a, b with
  | x :: a', y :: b' => fmul x y :: mul a' b'
  | _, _ => []
  end.

(** [audio[lo : hi]] for [0 <= lo <= hi]. *)
Definition slice (lo hi : Z) (audio : list float) : list float :=
  firstn (Z.to_nat (hi - lo)) (skipn (Z.to_nat lo) audio).

(** The array [stft], held by columns: the source fills a matrix of
    zeros one column per frame. *)
Definition stft_columns (n_fft hop_length n_frames : Z) (window : list float)
           (audio : list float) : list (list complex) :=
  map (fun i =>
         let i := Z.of_nat i in
         let frame := slice (i * hop_length) (i * hop_length + n_fft) audio in
         if Z.of_nat (length frame) =? n_fft
         then rfft (mul frame window)
         else repeat c_zero (Z.to_nat (n_fft / 2 + 1)))
      (seq 0 (Z.to_nat n_frames)).

(** Row [i] of the filterbank: zeros, then the rising and the
    falling ramp written by the two inner loops.  The edges lie in
    [0 .. n_fft // 2] for the adapter's constants, so every write of
    the source is in range. *)
Definition filter_row (n_fft : Z) (bins : list Z) (i : nat) : list float :=
  let left := nth i bins 0 in
  let center := nth (i + 1) bins 0 in
  let right := nth (i + 2) bins 0 in
  map (fun j =>
         let j := Z.of_nat j in
         if (left <=? j) && (j <? center) then
           fdiv (f_of_Z (j - left)) (f_of_Z (center - left))
         else if (center <=? j) && (j <? right) then
           fdiv (f_of_Z (right - j)) (f_of_Z (right - center))
         else zero)
      (seq 0 (Z.to_nat (n_fft / 2 + 1))).

Definition _create_mel_filterbank (n_fft n_mels : Z) : matrix :=
  let bins := mel_bin_edges n_fft n_mels sample_rate in
  map (filter_row n_fft bins) (seq 0 (Z.to_nat n_mels)).

Fixpoint dot (a b : list float) : float :=
  match a, b with
  | x :: a', y :: b' => fadd (fmul x y) (dot a' b')
  | _, _ => zero
  end.

(** [a @ b], with [b] held by columns. *)
Definition matmul (a : matrix) (b_columns : list (list float)) : matrix :=
  map (fun row => map (fun col => dot row col) b_columns) a.

(** [m.max()]; NumPy raises on an empty array, which the 80 by 2998
    array it is applied to never is. *)
Definition array_max (m : matrix) : float :=
  match concat m with
  | [] => zero
  | x :: rest => fold_left fmax rest x
  end.

Definition _compute_mel_spectrogram (audio : list float) : matrix :=
  let n_fft := 400 in
  let hop_length := 160 in
  let n_mels := 80 in
  let target_length := 30 * sample_rate in
  let audio := pad_or_trim target_length audio in
  let window := hanning (Z.to_nat n_fft) in
  let n_frames := 1 + (Z.of_nat (length audio) - n_fft) / hop_length in
  let stft := stft_columns n_fft hop_length n_frames window audio in
  let power := map (map abs2) stft in
  let mel_basis := _create_mel_filterbank n_fft n_mels in
  let mel_spec := matmul mel_basis power in
  let log_mel :=
    map (map (fun x => flog10 (fmax x (f_lit (1 # 10000000000))))) mel_spec in
  let top := array_max log_mel in
  let log_mel := map (map (fun x => fmax x (fsub top (f_lit 8)))) log_mel in
  let log_mel := map (map (fun x => fdiv (fadd x (f_lit 4)) (f_lit 4))) log_mel in
  map (map to_f32) log_mel.

(** [mel.shape] *)
Definition shape (m : matrix) : Z * Z :=
  (Z.of_nat (length m),
   match m with [] => 0 | row :: _ => Z.of_nat (length row) end).

(** [row[:stop]] with Python's reading of a negative [stop]. *)
Definition slice_to (stop : Z) (row : list float) : list float :=
  if 0 <=? stop then firstn (Z.to_nat stop) row
  else firstn (Z.to_nat (Z.of_nat (length row) + stop)) row.

(** [self._expected_frames or 3000] *)
Definition expected_frames (self : WhisperASR) : Z :=
  match _expected_frames self with
  | Some n => if n =? 0 then 3000 else n
  | None => 3000
  end.

Inductive adjustment : Type :=
| Pad (pad : Z)
| Truncate
| Keep.

(** The branch taken by "Pad/trim mel to expected frames". *)
Definition frame_adjustment (n_frames expected : Z) : adjustment :=
  if n_frames <? expected then Pad (expected - n_frames)
  else if expected <? n_frames then Truncate
  else Keep.

Definition fit_frames (expected : Z) (mel : matrix) : matrix :=
  let '(n_mels, n_frames) := shape mel in
  match frame_adjustment n_frames expected with
  | Pad pad => map (fun row => row ++ repeat zero (Z.to_nat pad)) mel
  | Truncate => map (slice_to expected) mel
  | Keep => mel
  end.

(** The tensor [transcribe] hands to the encoder. *)
Definition encoder_features (self : WhisperASR) (audio : list float) : matrix :=
  let mel := _compute_mel_spectrogram audio in
  let expected := expected_frames self in
  fit_frames expected mel.

(** *** Greedy decoding *)

(** [int(np.argmax(v))]: the first index of a largest entry;
    [None] where NumPy raises on an empty sequence. *)
Fixpoint argmax_from (best : float) (best_i i : nat) (v : list float) : nat :=
  match v with
  | [] => best_i
  | x :: v' =>
      if fltb best x then argmax_from x i (S i) v'
      else argmax_from best best_i (S i) v'
  end.

Definition argmax (v : list float) : option nat :=
  match v with
  | [] => None
  | x :: v' => Some (argmax_from x 0%nat 1%nat v')
  end.

(** The body of the [try] up to [next_token]: [None] when anything
    in it raises, which the [except Exception] turns into [break]. *)
Definition next_token_of (dec : DecoderSession) (encoder_hidden : hidden)
           (token_input : list Z) : option Z :=
  match dec_run dec token_input encoder_hidden with
  | Raise _ => None
  | Ok logits =>
      match argmax logits with
      | None => None
      | Some i => Some (Z.of_nat i)
      end
  end.

Definition max_tokens : nat := 50.

Record loop_state : Type := {
  tokens : list Z;                        (* the working sequence *)
  generated_tokens : list Z
}.

(** [for _ in range(max_tokens)]: [budget] iterations are left, [i]
    have been made.  [step i token_input] is the outcome of the
    [i]-th decoder call, made on [token_input], the working sequence.
    Returns the states in which the decoder was called, in order, and
    the state on leaving the loop. *)
Fixpoint greedy_loop (step : nat -> list Z -> option Z) (budget i : nat)
         (st : loop_state) : list loop_state * loop_state :=
  match budget with
  | O => ([], st)
  | S budget' =>
      let token_input := tokens st in
      match step i token_input with
      | None => ([st], st)                                   (* except: break *)
      | Some next_token =>
          if next_token =? EOT_TOKEN then ([st], st)         (* break *)
          else
            let st' :=
              {| tokens := tokens st ++ [next_token];
                 generated_tokens := generated_tokens st ++ [next_token] |} in
            let '(calls, final) := greedy_loop step budget' (S i) st' in
            (st :: calls, final)
      end
  end.

(** The loop as [_decode_with_decoder] starts it. *)
Definition decoding_run (step : nat -> list Z -> option Z) (seed : list Z)
  : list loop_state * loop_state :=
  greedy_loop step max_tokens 0%nat
    {| tokens := seed; generated_tokens := [] |}.

Definition _decode_with_decoder (self : WhisperASR) (dec : DecoderSession)
           (encoder_hidden : hidden) (language : str)
  : result (str * float) :=
  match _tokenizer self with
  | None => Raise AttributeError
  | Some tokenizer =>
      let seed := build_decoder_input language (lit "transcribe") true in
      let '(_, final) :=
        decoding_run (fun _ => next_token_of dec encoder_hidden) seed in
      let generated_tokens := generated_tokens final in
      match generated_tokens with
      | _ :: _ =>
          Ok (decode tokenizer generated_tokens true, f_lit (85 # 100))
      | [] =>
          Ok (lit "[Audio in " ++ PyDict.get_or eqb languages language language
                ++ lit "]",
              f_lit (60 # 100))
      end
  end.

(** *** transcribe *)

Inductive audio_input : Type :=
| Waveform (samples : list float)         (* np.ndarray *)
| PCM (data : list Byte.byte).            (* bytes *)

Definition int16_le (lo hi : Byte.byte) : Z :=
  let u := Z.of_N (Byte.to_N lo) + 256 * Z.of_N (Byte.to_N hi) in
  if u <? 32768 then u else u - 65536.

(** [np.frombuffer(audio, dtype=np.int16)] *)
Fixpoint frombuffer_int16 (data : list Byte.byte) : result (list Z) :=
  match data with
  | [] => Ok []
  | [_] => Raise ValueError
  | lo :: hi :: rest =>
      match frombuffer_int16 rest with
      | Ok v => Ok (int16_le lo hi :: v)
      | Raise e => Raise e
      end
  end.

Definition as_waveform (audio : audio_input) : result (list float) :=
  match audio with
  | Waveform samples => Ok samples
  | PCM data =>
      match frombuffer_int16 data with
      | Ok v => Ok (map (fun x => fdiv (to_f32 (f_of_Z x)) (f_lit 32768)) v)
      | Raise e => Raise e
      end
  end.

Record Segment : Type := {
  seg_start : float;
  seg_end : float;
  seg_text : str;
  seg_confidence : float
}.

Record Transcription : Type := {
  text : str;
  language : str;
  confidence : float;
  segments : list Segment;
  duration_ms : Z
}.

(** [tick] counts the clock readings made so far; [transcribe]
    makes two. *)
Definition transcribe (self : WhisperASR) (audio : audio_input)
           (language : str) (tick : nat) : result Transcription :=
  let start := perf_counter tick in
  match _encoder_session self, _decoder_session self with
  | Some enc, Some dec =>
      match as_waveform audio with
      | Raise e => Raise e
      | Ok audio =>
          let mel := encoder_features self audio in
          match enc_run enc mel with
          | Raise e => Raise e
          | Ok encoder_hidden =>
              match _decode_with_decoder self dec encoder_hidden language with
              | Raise e => Raise e
              | Ok (text, confidence) =>
                  let duration_ms := ms_between start (perf_counter (S tick)) in
                  Ok {| text := text;
                        language := language;
                        confidence := confidence;
                        segments :=
                          [ {| seg_start := zero;
                               seg_end := fdiv (f_of_Z (Z.of_nat (length audio)))
                                               (f_of_Z sample_rate);
                               seg_text := text;
                               seg_confidence := confidence |} ];
                        duration_ms := duration_ms |}
              end
          end
      end
  | _, _ => Raise NotLoaded
  end.

(** [[self.transcribe(audio, language) for audio in audio_list]] *)
Fixpoint transcribe_batch (self : WhisperASR) (audio_list : list audio_input)
         (language : str) (tick : nat) : result (list Transcription) :=
  match audio_list with
  | [] => Ok []
  | audio :: rest =>
      match transcribe self audio language tick with
      | Raise e => Raise e
      | Ok r =>
          match transcribe_batch self rest language (S (S tick)) with
          | Raise e => Raise e
          | Ok rs => Ok (r :: rs)
          end
      end
  end.

Record Info : Type := {
  info_model : str;
  info_backend : str;
  info_quantized : bool;
  info_sample_rate : Z;
  info_languages : list str;
  info_loaded : bool
}.

Definition is_some {A : Type} (o : option A) : bool :=
  match o with Some _ => true | None => false end.

Definition get_info (self : WhisperASR) : Info :=
  {| info_model := lit "Whisper Tiny";
     info_backend := lit "ONNX Runtime";
     info_quantized := use_quantized self;
     info_sample_rate := sample_rate;
     info_languages := PyDict.keys languages;
     info_loaded :=
       is_some (_encoder_session self) && is_some (_decoder_session self) |}.

End Adapter.
End Whisper.

(** ** A scripted stand-in for the numeric kernel and the sessions

    The engine is exercised below with exact rationals for samples and
    sessions that answer without looking at their input. *)
Module Stub.
Import PyStr Tokenizer Whisper.

Definition runtime : Runtime :=
  {| float := Q;
     complex := Q;
     hidden := unit;
     f_lit := fun q => q;
     f_of_Z := inject_Z;
     fadd := Qplus;
     fsub := Qminus;
     fmul := Qmult;
     fdiv := Qdiv;
     fmax := fun a b => if Qle_bool a b then b else a;
     fltb := fun a b => negb (Qle_bool b a);
     flog10 := fun x => x;
     to_f32 := fun x => x;
     hann_coef := fun _ _ => 1%Q;
     rfft_bin := fun k x => nth k x 0%Q;
     c_zero := 0%Q;
     abs2 := fun z => Qmult z z;
     mel_bin_edges := fun _ n_mels _ => map Z.of_nat (seq 0 (Z.to_nat n_mels + 2));
     perf_counter := fun n => inject_Z (Z.of_nat n);
     ms_between := fun t0 t1 => Qfloor (Qmult (Qminus t1 t0) 1000) |}.

Definition encoder : @EncoderSession runtime :=
  {| enc_input_shape := Some [DimInt 1; DimInt 80; DimInt 3000];
     enc_run := fun _ => Ok (tt : @hidden runtime) |}.

(** Logits whose largest entry is always at index 1: a decoder that
    never emits end-of-text. *)
Definition decoder : @DecoderSession runtime :=
  {| dec_run := fun _ _ => Ok ([0%Q; 1%Q] : list (@float runtime)) |}.

Definition empty_tokenizer : WhisperTokenizer :=
  {| vocab := []; inv_vocab := []; merges := [] |}.

Definition fresh : @WhisperASR runtime :=
  __init__ (lit "models/encoder.onnx") (lit "models/decoder.onnx") true.

(** A model directory with both graphs and no [vocab.json]. *)
Definition env : @LoadEnv runtime :=
  {| onnxruntime_installed := true;
     path_exists := fun _ => true;
     new_encoder_session := fun _ => Ok encoder;
     new_decoder_session := fun _ => Ok decoder;
     parent := fun _ => lit "models";
     vocab_json := fun _ => Missing;
     merges_txt := fun _ => NoMerges |}.

(** The same directory with a [vocab.json] that [json.load] rejects. *)
Definition env_bad_vocab : @LoadEnv runtime :=
  {| onnxruntime_installed := true;
     path_exists := fun _ => true;
     new_encoder_session := fun _ => Ok encoder;
     new_decoder_session := fun _ => Ok decoder;
     parent := fun _ => lit "models";
     vocab_json := fun _ => Malformed;
     merges_txt := fun _ => NoMerges |}.

(** A one-sample waveform. *)
Definition wave : list (@float runtime) := [1%Q].

(** A directory that has the encoder graph only. *)
Definition env_no_decoder : @LoadEnv runtime :=
  {| onnxruntime_installed := true;
     path_exists := fun p => eqb p (lit "models/encoder.onnx");
     new_encoder_session := fun _ => Ok encoder;
     new_decoder_session := fun _ => Ok decoder;
     parent := fun _ => lit "models";
     vocab_json := fun _ => Missing;
     merges_txt := fun _ => NoMerges |}.

Definition loaded : @WhisperASR runtime := fst (load env fresh).

Definition half_loaded : @WhisperASR runtime := fst (load env_bad_vocab fresh).
End Stub.

(** ** More scripted sessions *)
Module Scripts.
Import PyStr Tokenizer Whisper.

(** A decoder whose every call raises. *)
Definition failing_decoder : @DecoderSession Stub.runtime :=
  {| dec_run := fun _ _ => Raise ExternalError |}.

(** An encoder that declares a frame axis of -1. *)
Definition odd_encoder : @EncoderSession Stub.runtime :=
  {| enc_input_shape := Some [DimInt 1; DimInt 80; DimInt (-1)];
     enc_run := fun _ => Ok (tt : @hidden Stub.runtime) |}.

Definition env_odd_encoder : @LoadEnv Stub.runtime :=
  {| onnxruntime_installed := true;
     path_exists := fun _ => true;
     new_encoder_session := fun _ => Ok odd_encoder;
     new_decoder_session := fun _ => Ok Stub.decoder;
     parent := fun _ => lit "models";
     vocab_json := fun _ => Missing;
     merges_txt := fun _ => NoMerges |}.

Definition odd_engine : @WhisperASR Stub.runtime := fst (load env_odd_encoder Stub.fresh).

(** A two-letter vocabulary. *)
Definition ab_members : list (str * Z) := [(lit "a", 1); (lit "b", 2)].

Definition ab_tokenizer : WhisperTokenizer :=
  {| vocab := PyDict.of_pairs eqb ab_members;
     inv_vocab := invert (PyDict.of_pairs eqb ab_members);
     merges := [] |}.

(** An engine with both sessions, the empty tokenizer and a decoder
    that fails. *)
Definition engine_failing_decoder : @WhisperASR Stub.runtime :=
  {| model_path := lit "models/encoder.onnx";
     decoder_path := lit "models/decoder.onnx";
     use_quantized := true;
     _encoder_session := Some Stub.encoder;
     _decoder_session := Some failing_decoder;
     _tokenizer := Some Stub.empty_tokenizer;
     _expected_frames := Some 3000 |}.
End Scripts.

(** The outcome of a comprehension over fallible calls: the list of
    all results, or the first exception. *)
Fixpoint all_or_first_error {A : Type} (l : list (result A)) : result (list A) :=
  match l with
  | [] => Ok []
  | Raise e :: _ => Raise e
  | Ok a :: l' =>
      match all_or_first_error l' with
      | Ok r => Ok (a :: r)
      | Raise e => Raise e
      end
  end.

(** The results of the items of a batch, each passed to [transcribe]
    on its own with the two clock readings that are its in the batch. *)
Fixpoint each_alone {R : Runtime} (self : Whisper.WhisperASR)
         (audio_list : list Whisper.audio_input) (language : PyStr.str)
         (tick : nat) : list (result Whisper.Transcription) :=
  match audio_list with
  | [] => []
  | audio :: rest =>
      Whisper.transcribe self audio language tick
        :: each_alone self rest language (S (S tick))
  end.

(** * Properties *)

(** ** Dictionaries and strings *)
Section DictFacts.
Context {K V : Type} (keqb : K -> K -> bool).

Lemma get_in_values (d : PyDict.dict K V) (k : K) (v : V) :
  PyDict.get keqb d k = Some v -> In v (PyDict.values d).
Proof.
  induction d as [|[k' v'] d IH]; simpl; [discriminate|].
  destruct (keqb k k').
  - intros E; inversion E; subst; now left.
  - intros E; right; now apply IH.
Qed.

Lemma get_or_cases (d : PyDict.dict K V) (k : K) (default : V) :
  PyDict.get_or keqb d k default =
  match PyDict.get keqb d k with Some v => v | None => default end.
Proof. reflexivity. Qed.
End DictFacts.

(** ** Tokenizer *)
Section TokenizerFacts.
Import PyStr Tokenizer.

Lemma languages_len : PyDict.len LANGUAGES = 99.
Proof. vm_compute. reflexivity. Qed.

Lemma languages_en : LANGUAGES_en = 50259.
Proof. vm_compute. reflexivity. Qed.

Lemma languages_ids :
  forallb (fun id => (50259 <=? id) && (id <=? 50357)) (PyDict.values LANGUAGES) = true.
Proof. vm_compute. reflexivity. Qed.

Lemma language_token_range (language : str) :
  50259 <= get_language_token language <= 50357.
Proof.
  unfold get_language_token. rewrite get_or_cases.
  destruct (PyDict.get eqb LANGUAGES language) as [id|] eqn:E.
  - apply get_in_values in E.
    pose proof languages_ids as H. rewrite forallb_forall in H.
    specialize (H id E). lia.
  - rewrite languages_en. lia.
Qed.

Lemma decode_tokens_filter (self : WhisperTokenizer) (ids : list Z) :
  decode_tokens self true ids =
  decode_tokens self true (filter (fun id => id <? SOT_TOKEN) ids).
Proof.
  induction ids as [|id ids IH]; [reflexivity|].
  simpl. destruct (SOT_TOKEN <=? id) eqn:Hs.
  - replace (id <? SOT_TOKEN) with false by lia. exact IH.
  - replace (id <? SOT_TOKEN) with true by lia.
    simpl. rewrite Hs. destruct (id =? EOT_TOKEN); [reflexivity|].
    destruct (truthy _); now rewrite IH.
Qed.

Lemma decode_tokens_eot (self : WhisperTokenizer) (pre post : list Z) :
  decode_tokens self true (pre ++ EOT_TOKEN :: post) = decode_tokens self true pre.
Proof.
  induction pre as [|id pre IH]; [reflexivity|].
  simpl. destruct (SOT_TOKEN <=? id); [exact IH|].
  destruct (id =? EOT_TOKEN); [reflexivity|].
  destruct (truthy _); now rewrite IH.
Qed.

Lemma decode_tokens_special (self : WhisperTokenizer) (ids : list Z) :
  Forall (fun id => SOT_TOKEN <= id) ids -> decode_tokens self true ids = [].
Proof.
  induction 1 as [|id ids Hid _ IH]; [reflexivity|].
  simpl. replace (SOT_TOKEN <=? id) with true by lia. exact IH.
Qed.

(** C3. With [skip_special_tokens] set, [decode] gives the text of the
    ids below start-of-transcript alone (every id >= 50258 is
    dropped), and an end-of-text id (50257) ends the loop: the ids
    after it add nothing, whatever precedes it. *)
Theorem decode_skips_special_and_stops_at_eot :
  forall (self : WhisperTokenizer) (ids pre post : list Z),
    SOT_TOKEN = 50258 /\ EOT_TOKEN = 50257 /\
    decode self ids true =
      decode self (filter (fun id => id <? SOT_TOKEN) ids) true /\
    decode_tokens self true (filter (fun id => SOT_TOKEN <=? id) ids) = [] /\
    decode_tokens self true (pre ++ EOT_TOKEN :: post) = decode_tokens self true pre /\
    decode self (pre ++ EOT_TOKEN :: post) true = decode self pre true.
Proof.
  intros self ids pre post.
  split; [reflexivity|]. split; [reflexivity|].
  split; [unfold decode; now rewrite <- decode_tokens_filter|].
  split.
  - apply decode_tokens_special, Forall_forall.
    intros id Hin. apply filter_In in Hin. lia.
  - split; [apply decode_tokens_eot|].
    unfold decode. now rewrite decode_tokens_eot.
Qed.

(** C7. Every token of the decoder seed is at or above
    start-of-transcript, for every language code (and either task,
    with or without the no-timestamps token), so decoding the seed
    with [skip_special_tokens] gives the empty string. *)
Theorem decode_of_decoder_seed_is_empty :
  forall (self : WhisperTokenizer) (language task : str) (no_timestamps : bool),
    Forall (fun id => SOT_TOKEN <= id)
           (build_decoder_input language task no_timestamps) /\
    build_decoder_input language (lit "transcribe") true =
      [SOT_TOKEN; get_language_token language; TRANSCRIBE_TOKEN; NO_TIMESTAMPS_TOKEN] /\
    decode self (build_decoder_input language task no_timestamps) true = [].
Proof.
  intros self language task no_timestamps.
  assert (Hseed : Forall (fun id => SOT_TOKEN <= id)
                     (build_decoder_input language task no_timestamps)).
  { pose proof (language_token_range language) as Hl.
    unfold build_decoder_input.
    destruct (eqb task (lit "translate")), no_timestamps; simpl;
      repeat constructor;
      unfold SOT_TOKEN, TRANSLATE_TOKEN, TRANSCRIBE_TOKEN, NO_TIMESTAMPS_TOKEN;
      lia. }
  split; [exact Hseed|]. split; [reflexivity|].
  unfold decode. now rewrite decode_tokens_special.
Qed.

(** C5, the table as the source has it: 99 entries, with the ids
    50259 to 50357 (50358 is the translate token); a code outside the
    table gets English's id, 50259, and no lookup fails. *)
Theorem language_table_and_fallback :
  forall language : str,
    PyDict.len LANGUAGES = 99 /\
    PyDict.values LANGUAGES = map (fun k => 50259 + Z.of_nat k) (seq 0 99) /\
    PyDict.get eqb LANGUAGES (lit "en") = Some 50259 /\
    get_language_token language =
      match PyDict.get eqb LANGUAGES language with
      | Some id => id
      | None => 50259
      end.
Proof.
  intros language.
  split; [exact languages_len|].
  split; [vm_compute; reflexivity|].
  split; [vm_compute; reflexivity|].
  unfold get_language_token. rewrite get_or_cases, languages_en. reflexivity.
Qed.

(** C5 as stated fails: the table does not have 100 entries. *)
Lemma language_table_has_not_100_entries : PyDict.len LANGUAGES <> 100.
Proof. rewrite languages_len. discriminate. Qed.

(** C6, as the source has it: [encode] maps each character on its
    own; a character the vocabulary lacks gets the id the vocabulary
    gives to the string [<|endoftext|>], and 0 when the vocabulary has
    no such entry.  [encode] is total: one id per character. *)
Theorem encode_per_character :
  forall (self : WhisperTokenizer) (text : str),
    let fallback :=
      match PyDict.get eqb (vocab self) eot_key with
      | Some id => id
      | None => 0
      end in
    length (encode self text) = length text /\
    encode self text =
      map (fun c =>
             match PyDict.get eqb (vocab self) [c] with
             | Some id => id
             | None => fallback
             end) text.
Proof.
  intros self text fallback. split.
  - unfold encode. apply length_map.
  - unfold encode. apply map_ext. intros c.
    now rewrite !get_or_cases.
Qed.

(** C6 as stated fails: with the empty vocabulary (no [vocab.json]) a
    character is unknown and is mapped to 0, not to the end-of-text
    id. *)
Lemma encode_unknown_character_is_not_eot :
  _load_tokenizer Missing NoMerges = Ok Stub.empty_tokenizer /\
  PyDict.get eqb (vocab Stub.empty_tokenizer) (lit "a") = None /\
  encode Stub.empty_tokenizer (lit "a") = [0] /\
  encode Stub.empty_tokenizer (lit "a") <> [EOT_TOKEN].
Proof.
  split; [reflexivity|]. split; [reflexivity|]. split; [reflexivity|].
  vm_compute. discriminate.
Qed.
(** A five-entry vocabulary with the two byte markers, and the engine's
    methods on it. *)
Example decode_stops_and_cleans :
  match _load_tokenizer
          (Parsed [ (lit "h", 1); ([G_DOT; 105%N], 2); (lit "x", 3);
                    (eot_key, 50257); ([C_DOT], 4) ])
          NoMerges with
  | Ok tok =>
      decode tok [4; 1; 50258; 2; 50300; 50257; 3] true = lit "h i" /\
      encode tok (lit "hxq") = [1; 3; 50257]
  | Raise _ => False
  end.
Proof. split; reflexivity. Qed.

Example seed_for_hindi :
  build_decoder_input (lit "hi") (lit "transcribe") true =
  [50258; 50276; 50359; 50363].
Proof. reflexivity. Qed.
End TokenizerFacts.

(** ** Feature extraction *)
Section FeatureFacts.
Import PyStr Tokenizer Whisper.
Context {R : Runtime}.

Lemma pad_or_trim_length (target_length : Z) (audio : list float) :
  0 <= target_length ->
  Z.of_nat (length (pad_or_trim target_length audio)) = target_length.
Proof.
  intros Ht. unfold pad_or_trim.
  destruct (Z.of_nat (length audio) <? target_length) eqn:E.
  - rewrite length_app, repeat_length. lia.
  - rewrite length_firstn. lia.
Qed.

Lemma pad_or_trim_firstn (target_length : Z) (audio : list float) :
  pad_or_trim target_length audio =
  firstn (Z.to_nat target_length)
         (audio ++ repeat zero (Z.to_nat target_length - length audio)).
Proof.
  unfold pad_or_trim.
  destruct (Z.of_nat (length audio) <? target_length) eqn:E.
  - replace (Z.to_nat (target_length - Z.of_nat (length audio)))
      with (Z.to_nat target_length - length audio)%nat by lia.
    symmetry. apply firstn_all2.
    rewrite length_app, repeat_length. lia.
  - replace (Z.to_nat target_length - length audio)%nat with 0%nat by lia.
    simpl. now rewrite app_nil_r.
Qed.

Lemma frames_of_30_seconds :
  1 + (30 * sample_rate - 400) / 160 = 2998.
Proof. reflexivity. Qed.

Lemma mel_rows (audio : list float) :
  Z.of_nat (length (_compute_mel_spectrogram audio)) = 80.
Proof.
  unfold _compute_mel_spectrogram, matmul, _create_mel_filterbank.
  cbv zeta. rewrite !length_map, length_seq. lia.
Qed.

Lemma mel_columns (audio : list float) :
  Forall (fun row => Z.of_nat (length row) = 2998)
         (_compute_mel_spectrogram audio).
Proof.
  unfold _compute_mel_spectrogram, matmul, stft_columns. cbv zeta.
  rewrite !Forall_map. apply Forall_forall. intros row _.
  rewrite !length_map, length_seq.
  rewrite pad_or_trim_length by (unfold sample_rate; lia).
  rewrite frames_of_30_seconds. lia.
Qed.

Lemma shape_of_rows (m : matrix) (r c : Z) :
  0 < r -> Z.of_nat (length m) = r ->
  Forall (fun row => Z.of_nat (length row) = c) m ->
  shape m = (r, c).
Proof.
  intros Hr Hm Hc. unfold shape. destruct m as [|row m].
  - simpl in Hm. lia.
  - inversion Hc as [|? ? H1 H2]. now rewrite Hm, H1.
Qed.

Lemma mel_shape (audio : list float) :
  shape (_compute_mel_spectrogram audio) = (80, 2998).
Proof.
  apply shape_of_rows; [lia | apply mel_rows | apply mel_columns].
Qed.

Lemma fit_frames_rows (expected cols : Z) (mel : matrix) :
  0 <= expected -> mel <> [] ->
  Forall (fun row => Z.of_nat (length row) = cols) mel ->
  fit_frames expected mel =
    map (fun row =>
           firstn (Z.to_nat expected)
                  (row ++ repeat zero (Z.to_nat (expected - cols))))
        mel.
Proof.
  intros He Hne Hc. unfold fit_frames, shape, frame_adjustment.
  destruct mel as [|row0 mel0] eqn:Em; [contradiction|]. rewrite <- Em in *.
  assert (H0 : Z.of_nat (length row0) = cols).
  { rewrite Em in Hc. now inversion Hc. }
  rewrite H0. clear Em H0 Hne.
  destruct (cols <? expected) eqn:E1; [|destruct (expected <? cols) eqn:E2].
  - apply map_ext_in. intros row Hin.
    rewrite Forall_forall in Hc. specialize (Hc row Hin).
    symmetry. apply firstn_all2. rewrite length_app, repeat_length. lia.
  - apply map_ext_in. intros row Hin.
    rewrite Forall_forall in Hc. specialize (Hc row Hin).
    unfold slice_to. replace (0 <=? expected) with true by lia.
    replace (Z.to_nat (expected - cols)) with 0%nat by lia.
    simpl. now rewrite app_nil_r.
  - rewrite <- (map_id mel) at 1. apply map_ext_in. intros row Hin.
    rewrite Forall_forall in Hc. specialize (Hc row Hin).
    replace (Z.to_nat (expected - cols)) with 0%nat by lia.
    simpl. rewrite app_nil_r. symmetry. apply firstn_all2. lia.
Qed.

Lemma mel_nonempty (audio : list float) : _compute_mel_spectrogram audio <> [].
Proof.
  intros E. pose proof (mel_rows audio) as H. rewrite E in H. simpl in H. lia.
Qed.

(** C1. Whatever the length of the waveform, it is brought to 30
    seconds at 16 kHz (480000 samples: zeros appended on the right, or
    cut), and the tensor handed to the encoder has 80 rows of
    [expected_frames] columns each: every row of the spectrogram,
    zero-padded or cut along the frame axis.  [expected_frames], the
    frame count taken from the encoder's input shape or 3000, is a
    dimension, so not negative. *)
Theorem encoder_features_shape :
  forall (self : WhisperASR) (audio : list float),
    0 <= expected_frames self ->
    let wave := pad_or_trim (30 * sample_rate) audio in
    let mel := _compute_mel_spectrogram audio in
    let features := encoder_features self audio in
    Z.of_nat (length wave) = 480000 /\
    wave = firstn (Z.to_nat 480000)
                  (audio ++ repeat zero (Z.to_nat 480000 - length audio)) /\
    shape features = (80, expected_frames self) /\
    Forall (fun row => Z.of_nat (length row) = expected_frames self) features /\
    features =
      map (fun row =>
             firstn (Z.to_nat (expected_frames self))
                    (row ++ repeat zero (Z.to_nat (expected_frames self - 2998))))
          mel.
Proof.
  intros self audio He wave mel features.
  assert (Hfit : features =
            map (fun row =>
                   firstn (Z.to_nat (expected_frames self))
                          (row ++ repeat zero (Z.to_nat (expected_frames self - 2998))))
                mel).
  { apply fit_frames_rows; [exact He | apply mel_nonempty | apply mel_columns]. }
  assert (Hcols : Forall (fun row => Z.of_nat (length row) = expected_frames self)
                    features).
  { rewrite Hfit, Forall_map.
    eapply Forall_impl; [|apply mel_columns].
    intros row Hrow. cbv beta in *.
    rewrite length_firstn, length_app, repeat_length. lia. }
  split; [apply pad_or_trim_length; unfold sample_rate; lia|].
  split; [apply (pad_or_trim_firstn (30 * sample_rate))|].
  split; [|split; [exact Hcols | exact Hfit]].
  apply shape_of_rows; [lia | | exact Hcols].
  rewrite Hfit, length_map. apply mel_rows.
Qed.

(** C10. The spectrogram of every waveform has
    1 + (480000 - 400) // 160 = 2998 frames, fewer than the default
    3000; with 3000 expected frames the adjustment is the padding
    branch, which appends two zero columns and cuts nothing. *)
Theorem mel_spectrogram_has_2998_frames :
  forall audio : list float,
    let mel := _compute_mel_spectrogram audio in
    shape mel = (80, 2998) /\
    Forall (fun row => Z.of_nat (length row) = 2998) mel /\
    1 + (480000 - 400) / 160 = 2998 /\
    2998 < 3000 /\
    expected_frames (__init__ [] [] true) = 3000 /\
    frame_adjustment (snd (shape mel)) 3000 = Pad 2 /\
    fit_frames 3000 mel = map (fun row => row ++ [zero; zero]) mel.
Proof.
  intros audio mel.
  split; [apply mel_shape|]. split; [apply mel_columns|].
  split; [reflexivity|]. split; [lia|]. split; [reflexivity|].
  split; [subst mel; rewrite mel_shape; reflexivity|].
  unfold fit_frames. subst mel. rewrite mel_shape. reflexivity.
Qed.
End FeatureFacts.

(** ** Greedy decoding *)
Section DecodingFacts.
Import PyStr Tokenizer Whisper.
Context {R : Runtime}.

Lemma seq_from_one {A : Type} (f : nat -> A) (n : nat) :
  map f (seq 1 n) = map (fun k => f (S k)) (seq 0 n).
Proof. now rewrite <- seq_shift, map_map. Qed.

(** The loop invariant: from any state, the loop appends one suffix to
    both sequences, within its budget, and the state at its [k]-th
    decoder call is the state it started from with the first [k] tokens
    of that suffix appended to both. *)
Lemma greedy_loop_appends (step : nat -> list Z -> option Z) (budget : nat) :
  forall (i : nat) (st : loop_state),
    exists suffix : list Z,
      let calls := fst (greedy_loop step budget i st) in
      let final := snd (greedy_loop step budget i st) in
      generated_tokens final = generated_tokens st ++ suffix /\
      tokens final = tokens st ++ suffix /\
      (length suffix <= budget)%nat /\
      (length calls <= budget)%nat /\
      (length calls <= S (length suffix))%nat /\
      calls = map (fun k => {| tokens := tokens st ++ firstn k suffix;
                               generated_tokens := generated_tokens st ++ firstn k suffix |})
                  (seq 0 (length calls)).
Proof.
  induction budget as [|budget IH]; intros i st.
  - exists []. simpl. rewrite !app_nil_r. repeat split; lia.
  - simpl. destruct (step i (tokens st)) as [next_token|].
    + destruct (next_token =? EOT_TOKEN).
      * exists []. destruct st. simpl. rewrite !app_nil_r. repeat split; lia.
      * destruct (IH (S i)
                     {| tokens := tokens st ++ [next_token];
                        generated_tokens := generated_tokens st ++ [next_token] |})
          as (suffix & Hg & Ht & Hl & Hf & Hfs & Hcalls).
        destruct (greedy_loop step budget (S i) _) as [calls final].
        simpl in *. exists (next_token :: suffix).
        rewrite Hg, Ht, <- !app_assoc. simpl.
        repeat split; try lia.
        f_equal; [destruct st; simpl; now rewrite !app_nil_r|].
        rewrite seq_from_one. rewrite Hcalls at 1.
        apply map_ext. intros k. now rewrite <- !app_assoc.
    + exists []. destruct st. simpl. rewrite !app_nil_r. repeat split; lia.
Qed.

(** C2. Whatever the decoder answers at each call (a token, never
    end-of-text included, or an exception), the loop returns: it makes
    at most 50 decoder calls and leaves at most 50 generated tokens. *)
Theorem greedy_decoding_within_budget :
  forall (step : nat -> list Z -> option Z) (seed : list Z),
    exists (calls : list loop_state) (final : loop_state),
      decoding_run step seed = (calls, final) /\
      (length calls <= 50)%nat /\
      (length (generated_tokens final) <= 50)%nat /\
      (length (tokens final) <= length seed + 50)%nat.
Proof.
  intros step seed. unfold decoding_run.
  destruct (greedy_loop_appends step max_tokens 0
              {| tokens := seed; generated_tokens := [] |})
    as (suffix & Hg & Ht & Hl & Hf & _ & _).
  destruct (greedy_loop step max_tokens 0 _) as [calls final].
  simpl in *. exists calls, final.
  split; [reflexivity|].
  rewrite Hg, Ht, length_app. unfold max_tokens in *. repeat split; lia.
Qed.

(** The whole run from any state: the loop appends one suffix to both
    sequences; the state at its [k]-th decoder call is the starting
    state with the first [k] tokens of the suffix appended to both; the
    [k]-th token of the suffix is the decoder's answer to that call,
    made on the working sequence of that state; and after the last
    token the loop has either used its budget or got an exception or
    end-of-text from one more call. *)
Lemma greedy_loop_trace (step : nat -> list Z -> option Z) (budget : nat) :
  forall (i : nat) (st : loop_state),
    exists suffix : list Z,
      let calls := fst (greedy_loop step budget i st) in
      let final := snd (greedy_loop step budget i st) in
      generated_tokens final = generated_tokens st ++ suffix /\
      tokens final = tokens st ++ suffix /\
      calls = map (fun k => {| tokens := tokens st ++ firstn k suffix;
                               generated_tokens := generated_tokens st ++ firstn k suffix |})
                  (seq 0 (length calls)) /\
      length calls = Nat.min budget (S (length suffix)) /\
      map (fun k => step (i + k)%nat (tokens st ++ firstn k suffix))
          (seq 0 (length suffix)) = map Some suffix /\
      (length suffix = budget \/
       step (i + length suffix)%nat (tokens st ++ suffix) = None \/
       step (i + length suffix)%nat (tokens st ++ suffix) = Some EOT_TOKEN).
Proof.
  induction budget as [|budget IH]; intros i st.
  - exists []. simpl. rewrite !app_nil_r. repeat split; auto.
  - simpl. destruct (step i (tokens st)) as [next_token|] eqn:Es.
    + destruct (next_token =? EOT_TOKEN) eqn:Ee.
      * exists []. destruct st as [toks gen]. simpl in *.
        rewrite !app_nil_r, Nat.add_0_r.
        apply Z.eqb_eq in Ee. subst.
        repeat split; auto; now rewrite Nat.min_0_r.
      * destruct (IH (S i)
                     {| tokens := tokens st ++ [next_token];
                        generated_tokens := generated_tokens st ++ [next_token] |})
          as (suffix & Hg & Ht & Hcalls & Hn & Hm & Hstop).
        destruct (greedy_loop step budget (S i) _) as [calls final].
        simpl in *. exists (next_token :: suffix).
        rewrite Hg, Ht, <- !app_assoc. simpl.
        split; [reflexivity|]. split; [reflexivity|].
        split.
        { f_equal; [destruct st; simpl; now rewrite !app_nil_r|].
          rewrite seq_from_one. rewrite Hcalls at 1.
          apply map_ext. intros k. now rewrite <- !app_assoc. }
        split; [now rewrite Hn|].
        split.
        { rewrite Nat.add_0_r, app_nil_r, Es. f_equal.
          rewrite seq_from_one, <- Hm. apply map_ext. intros k.
          now rewrite Nat.add_succ_r, <- app_assoc. }
        rewrite Nat.add_succ_r.
        rewrite <- !app_assoc in Hstop. simpl in Hstop.
        destruct Hstop as [H|[H|H]]; [left; lia | right; now left | right; now right].
    + exists []. destruct st as [toks gen]. simpl in *.
      rewrite !app_nil_r, Nat.add_0_r.
      repeat split; auto; now rewrite Nat.min_0_r.
Qed.

(** C9. At its [k]-th call the decoder is fed the seed followed by
    the [k] tokens generated so far, in generation order, and the
    accumulator holds those same [k] tokens: the two sequences grow by
    the same token at the same step and the seed stays the prefix.  The
    token added at step [k] is the decoder's answer to exactly that
    input, [step k (seed ++ first k generated tokens)]; the calls are
    one per generated token plus the call that stopped the loop, if the
    budget of 50 did not.  On leaving the loop the working sequence is
    the seed followed by all the generated tokens. *)
Theorem decoder_input_is_seed_then_generated :
  forall (step : nat -> list Z -> option Z) (seed : list Z),
    let calls := fst (decoding_run step seed) in
    let final := snd (decoding_run step seed) in
    tokens final = seed ++ generated_tokens final /\
    calls = map (fun k =>
                   {| tokens := seed ++ firstn k (generated_tokens final);
                      generated_tokens := firstn k (generated_tokens final) |})
                (seq 0 (length calls)) /\
    (length calls <= S (length (generated_tokens final)))%nat /\
    length calls = Nat.min 50 (S (length (generated_tokens final))) /\
    map (fun k => step k (seed ++ firstn k (generated_tokens final)))
        (seq 0 (length (generated_tokens final)))
      = map Some (generated_tokens final) /\
    (length (generated_tokens final) = 50%nat \/
     step (length (generated_tokens final)) (seed ++ generated_tokens final) = None \/
     step (length (generated_tokens final)) (seed ++ generated_tokens final)
       = Some EOT_TOKEN).
Proof.
  intros step seed. unfold decoding_run.
  destruct (greedy_loop_trace step max_tokens 0
              {| tokens := seed; generated_tokens := [] |})
    as (suffix & H).
  remember (greedy_loop step max_tokens 0 _) as run eqn:Erun. clear Erun.
  cbv zeta in H. cbn [tokens generated_tokens app Nat.add] in H.
  destruct H as (Hg & Ht & Hcalls & Hn & Hm & Hstop).
  cbv zeta. rewrite Hg. unfold max_tokens in Hn, Hstop.
  split; [exact Ht|]. split; [exact Hcalls|].
  split; [rewrite Hn; apply Nat.le_min_r|].
  split; [exact Hn|]. split; [exact Hm | exact Hstop].
Qed.

(** Three tokens, then end-of-text: four decoder calls, three tokens
    kept.  Two tokens, then an exception: three calls, two tokens kept. *)
Example run_until_eot :
  snd (decoding_run (fun i _ => if (i <? 3)%nat then Some (Z.of_nat i + 10)
                                else Some EOT_TOKEN)
                    [50258; 50259]) =
  {| tokens := [50258; 50259; 10; 11; 12]; generated_tokens := [10; 11; 12] |}.
Proof. reflexivity. Qed.

Example run_until_exception :
  decoding_run (fun i _ => if (i <? 2)%nat then Some (Z.of_nat i + 10) else None)
               [50258; 50259] =
  ([ {| tokens := [50258; 50259]; generated_tokens := [] |};
     {| tokens := [50258; 50259; 10]; generated_tokens := [10] |};
     {| tokens := [50258; 50259; 10; 11]; generated_tokens := [10; 11] |} ],
   {| tokens := [50258; 50259; 10; 11]; generated_tokens := [10; 11] |}).
Proof. reflexivity. Qed.
(** A decoder that never emits end-of-text uses the whole budget. *)
Example run_without_eot :
  length (generated_tokens (snd (decoding_run (fun _ _ => Some 5) [50258]))) = 50%nat.
Proof. reflexivity. Qed.
End DecodingFacts.

(** ** Transcription *)
Section TranscriptionFacts.
Import PyStr Tokenizer Whisper.
Context {R : Runtime}.

Lemma each_alone_nth (self : WhisperASR) (language : str)
      (audio_list : list audio_input) :
  forall (tick k : nat),
    nth_error (each_alone self audio_list language tick) k =
    option_map (fun audio => transcribe self audio language (tick + 2 * k))
               (nth_error audio_list k).
Proof.
  induction audio_list as [|audio rest IH]; intros tick k.
  - destruct k; reflexivity.
  - destruct k as [|k].
    + simpl. now rewrite Nat.add_0_r.
    + cbn [each_alone nth_error]. rewrite IH.
      destruct (nth_error rest k); [|reflexivity].
      cbn [option_map]. do 2 f_equal. lia.
Qed.

(** C4, as the source has it: the batch passes the waveforms through
    [transcribe] one after the other, in input order.  When every item
    succeeds it returns their results in that order, each the result
    of [transcribe] on that item alone; otherwise it raises the
    exception of the first failing item. *)
Theorem transcribe_batch_all_or_first_error :
  forall (self : WhisperASR) (audio_list : list audio_input)
         (language : str) (tick k : nat),
    transcribe_batch self audio_list language tick =
      all_or_first_error (each_alone self audio_list language tick) /\
    length (each_alone self audio_list language tick) = length audio_list /\
    nth_error (each_alone self audio_list language tick) k =
      option_map (fun audio => transcribe self audio language (tick + 2 * k))
                 (nth_error audio_list k).
Proof.
  intros self audio_list language tick k.
  split; [|split; [|apply each_alone_nth]].
  - revert tick. induction audio_list as [|audio rest IH]; intros tick.
    + reflexivity.
    + simpl. destruct (transcribe self audio language tick); [|reflexivity].
      now rewrite IH.
  - revert tick. induction audio_list as [|audio rest IH]; intros tick.
    + reflexivity.
    + simpl. now rewrite IH.
Qed.

Lemma guard_rejects (self : WhisperASR) (audio : audio_input) (language : str)
      (tick : nat) :
  info_loaded (get_info self) = false ->
  transcribe self audio language tick = Raise NotLoaded.
Proof.
  intros H. unfold transcribe. simpl in H.
  destruct (_encoder_session self), (_decoder_session self);
    simpl in H; try discriminate; reflexivity.
Qed.

(** A load that stops before both sessions are assigned leaves the
    paths and an unset decoder session as they were. *)
Lemma load_stopped_early (env : LoadEnv) (self : WhisperASR) :
  stops_before_sessions env self = true ->
  _decoder_session self = None ->
  _decoder_session (fst (load env self)) = None /\
  model_path (fst (load env self)) = model_path self /\
  decoder_path (fst (load env self)) = decoder_path self.
Proof.
  unfold stops_before_sessions, load. intros Hs Hd.
  destruct (negb (onnxruntime_installed env)); [now repeat split|].
  destruct (negb (path_exists env (model_path self))); [now repeat split|].
  destruct (negb (path_exists env (decoder_path self))); [now repeat split|].
  destruct (new_encoder_session env (model_path self)); [|now repeat split].
  destruct (new_decoder_session env (decoder_path self)); [discriminate|].
  now repeat split.
Qed.

Lemma after_loads_stopped_early (envs : list LoadEnv) :
  forall (self0 self : WhisperASR),
    model_path self = model_path self0 ->
    decoder_path self = decoder_path self0 ->
    _decoder_session self = None ->
    Forall (fun env => stops_before_sessions env self0 = true) envs ->
    _decoder_session (after_loads envs self) = None.
Proof.
  induction envs as [|env envs IH]; intros self0 self Hm Hp Hd Hall.
  - exact Hd.
  - inversion Hall as [|? ? Henv Hrest]; subst.
    assert (Hs : stops_before_sessions env self = true).
    { unfold stops_before_sessions in *. now rewrite Hm, Hp. }
    destruct (load_stopped_early env self Hs Hd) as (Hd' & Hm' & Hp').
    unfold after_loads. simpl. apply (IH self0); try assumption; congruence.
Qed.

(** C8, as the source has it: on an engine on which no [load] has yet
    got as far as assigning both sessions (a fresh engine, also after
    calls of [load] that each stopped at the missing onnxruntime, at a
    missing model file or inside a session constructor), [transcribe]
    raises NotLoaded for every input, and the engine reports itself not
    loaded. *)
Theorem transcribe_before_sessions_loaded :
  forall (model decoder : str) (quantized : bool) (envs : list LoadEnv)
         (audio : audio_input) (language : str) (tick : nat),
    let fresh := __init__ model decoder quantized in
    Forall (fun env => stops_before_sessions env fresh = true) envs ->
    info_loaded (get_info (after_loads envs fresh)) = false /\
    transcribe (after_loads envs fresh) audio language tick = Raise NotLoaded.
Proof.
  intros model decoder quantized envs audio language tick fresh Hall.
  assert (Hd : _decoder_session (after_loads envs fresh) = None).
  { now apply (after_loads_stopped_early envs fresh fresh). }
  assert (Hi : info_loaded (get_info (after_loads envs fresh)) = false).
  { simpl. rewrite Hd. apply andb_false_r. }
  split; [exact Hi | now apply guard_rejects].
Qed.

(** A load that stops at the missing dependency or at a missing file
    assigns nothing. *)
Lemma load_not_found (env : LoadEnv) (self : WhisperASR) :
  onnxruntime_installed env = false \/
  path_exists env (model_path self) = false \/
  path_exists env (decoder_path self) = false ->
  fst (load env self) = self /\
  (snd (load env self) = Raise ImportError \/
   snd (load env self) = Raise FileNotFoundError).
Proof.
  intros H. unfold load.
  destruct (onnxruntime_installed env); simpl; [|now split; [|left]].
  destruct (path_exists env (model_path self)); simpl; [|now split; [|right]].
  destruct (path_exists env (decoder_path self)); simpl; [|now split; [|right]].
  destruct H as [H|[H|H]]; discriminate.
Qed.

(** A load that returns has set both sessions and the tokenizer. *)
Lemma load_success (env : LoadEnv) (self : WhisperASR) (b : bool) :
  snd (load env self) = Ok b ->
  b = true /\
  info_loaded (get_info (fst (load env self))) = true /\
  is_some (_tokenizer (fst (load env self))) = true.
Proof.
  unfold load.
  destruct (negb (onnxruntime_installed env)); [discriminate|].
  destruct (negb (path_exists env (model_path self))); [discriminate|].
  destruct (negb (path_exists env (decoder_path self))); [discriminate|].
  destruct (new_encoder_session env (model_path self)); [|discriminate].
  destruct (new_decoder_session env (decoder_path self)); [|discriminate].
  destruct (_load_tokenizer _); [|discriminate].
  simpl. intros E. inversion E. now repeat split.
Qed.
(** On a loaded engine with a tokenizer, [transcribe] returns as soon
    as the conversion of the input and the encoder call succeed: the
    decoding loop absorbs the failures of the decoder. *)
Lemma transcribe_succeeds (self : WhisperASR) (enc : EncoderSession)
      (dec : DecoderSession) (tok : WhisperTokenizer) (audio : audio_input)
      (samples : list float) (h : hidden) (language : str) (tick : nat) :
  _encoder_session self = Some enc ->
  _decoder_session self = Some dec ->
  _tokenizer self = Some tok ->
  as_waveform audio = Ok samples ->
  enc_run enc (encoder_features self samples) = Ok h ->
  exists r, transcribe self audio language tick = Ok r.
Proof.
  intros He Hd Ht Ha Hr. unfold transcribe, _decode_with_decoder.
  rewrite He, Hd, Ha, Hr, Ht. cbv zeta.
  destruct (decoding_run _ _) as [fed final].
  destruct (generated_tokens final); eexists; reflexivity.
Qed.
End TranscriptionFacts.

(** ** The properties on the scripted engine *)
Section Scripted.
Import PyStr Tokenizer Whisper.

(** The loaded scripted engine expects 3000 frames; a one-sample
    waveform gives it an 80 by 3000 tensor. *)
Lemma encoder_features_shape_witness :
  0 <= expected_frames Stub.loaded /\
  shape (encoder_features Stub.loaded Stub.wave) = (80, 3000).
Proof.
  assert (H : 0 <= @expected_frames Stub.runtime Stub.loaded).
  { assert (E : @expected_frames Stub.runtime Stub.loaded = 3000) by reflexivity.
    rewrite E. lia. }
  split; [exact H|].
  exact (proj1 (proj2 (proj2 (@encoder_features_shape Stub.runtime Stub.loaded Stub.wave H)))).
Defined.

(** A load in a directory without the decoder graph stops at the
    missing file; [transcribe] then raises NotLoaded. *)
Lemma transcribe_before_sessions_loaded_witness :
  Forall (fun env => stops_before_sessions env Stub.fresh = true)
         [Stub.env_no_decoder] /\
  transcribe (after_loads [Stub.env_no_decoder] Stub.fresh)
             (Waveform Stub.wave) (lit "en") 0 = Raise NotLoaded.
Proof.
  assert (H : Forall (fun env => @stops_before_sessions Stub.runtime env Stub.fresh = true)
                     [Stub.env_no_decoder]).
  { constructor; [reflexivity | constructor]. }
  split; [exact H|].
  exact (proj2 (@transcribe_before_sessions_loaded Stub.runtime
                  (lit "models/encoder.onnx") (lit "models/decoder.onnx") true
                  [Stub.env_no_decoder] (Waveform Stub.wave) (lit "en") 0%nat H)).
Defined.

(** C8 as stated fails: a load that raises while it builds the
    tokenizer has not succeeded, yet it has set both sessions, and a
    [transcribe] that follows passes the guard, runs the encoder and
    stops on the missing tokenizer. *)
Lemma transcribe_after_failed_load :
  snd (load Stub.env_bad_vocab Stub.fresh) = Raise ExternalError /\
  Stub.half_loaded = fst (load Stub.env_bad_vocab Stub.fresh) /\
  info_loaded (get_info Stub.half_loaded) = true /\
  transcribe Stub.half_loaded (Waveform Stub.wave) (lit "en") 0 = Raise AttributeError /\
  transcribe Stub.half_loaded (Waveform Stub.wave) (lit "en") 0 <> Raise NotLoaded.
Proof.
  split; [reflexivity|]. split; [reflexivity|]. split; [reflexivity|].
  assert (E : @transcribe Stub.runtime Stub.half_loaded (Waveform Stub.wave) (lit "en") 0
              = Raise AttributeError) by reflexivity.
  split; [exact E|]. rewrite E. discriminate.
Qed.

(** C4 as stated fails: a batch with one item that fails (PCM bytes of
    odd size) and one that succeeds on its own returns no result at
    all, whichever comes first. *)
Lemma transcribe_batch_aborts_on_item_failure :
  snd (load Stub.env Stub.fresh) = Ok true /\
  (exists r, transcribe Stub.loaded (Waveform Stub.wave) (lit "en") 0 = Ok r) /\
  transcribe Stub.loaded (PCM [Byte.x00]) (lit "en") 0 = Raise ValueError /\
  transcribe_batch Stub.loaded [PCM [Byte.x00]; Waveform Stub.wave] (lit "en") 0
    = Raise ValueError /\
  transcribe_batch Stub.loaded [Waveform Stub.wave; PCM [Byte.x00]] (lit "en") 0
    = Raise ValueError.
Proof.
  split; [reflexivity|].
  assert (Hgood : exists r,
             @transcribe Stub.runtime Stub.loaded (Waveform Stub.wave) (lit "en") 0 = Ok r).
  { eapply (@transcribe_succeeds Stub.runtime Stub.loaded Stub.encoder Stub.decoder
              Stub.empty_tokenizer (Waveform Stub.wave) Stub.wave tt);
      reflexivity. }
  split; [exact Hgood|].
  split; [reflexivity|].
  split; [reflexivity|].
  destruct Hgood as [r Hr].
  cbn [transcribe_batch]. rewrite Hr. reflexivity.
Qed.
End Scripted.

(** * Further properties *)

(** ** Strings and dictionaries, continued *)
Section StrFacts.
Import PyStr.

Lemma eqb_eq (a b : str) : eqb a b = true <-> a = b.
Proof.
  revert b. induction a as [|x a IH]; intros [|y b]; simpl;
    try (split; [discriminate | discriminate]); try tauto.
  rewrite andb_true_iff, N.eqb_eq, IH. split.
  - intros [-> ->]. reflexivity.
  - intros E. inversion E. now split.
Qed.

Lemma lstrip_suffix (s : str) :
  exists pre, s = pre ++ lstrip s /\ forallb isspace pre = true.
Proof.
  induction s as [|c s (pre & E & Hp)]; [now exists []|].
  simpl. destruct (isspace c) eqn:Hc.
  - exists (c :: pre). simpl. rewrite Hc, Hp. split; [now f_equal | reflexivity].
  - now exists [].
Qed.

Lemma lstrip_head (s : str) (c : char) (r : str) :
  lstrip s = c :: r -> isspace c = false.
Proof.
  induction s as [|x s IH]; simpl; [discriminate|].
  destruct (isspace x) eqn:Hx; [exact IH|].
  intros E. inversion E. now subst.
Qed.

Lemma rstrip_prefix (s : str) :
  exists post, s = rstrip s ++ post /\ forallb isspace post = true.
Proof.
  unfold rstrip. destruct (lstrip_suffix (rev s)) as (pre & E & Hp).
  exists (rev pre). split.
  - rewrite <- rev_app_distr, <- E. now rewrite rev_involutive.
  - rewrite forallb_forall in *. intros c Hc. apply Hp. now apply in_rev.
Qed.

Lemma strip_in (s : str) (c : char) : In c (strip s) -> In c s.
Proof.
  unfold strip. intros H.
  destruct (rstrip_prefix (lstrip s)) as (post & E & _).
  destruct (lstrip_suffix s) as (pre & E' & _).
  rewrite E', E. apply in_or_app. right. apply in_or_app. now left.
Qed.

Lemma strip_first (s : str) (c : char) (r : str) :
  strip s = c :: r -> isspace c = false.
Proof.
  unfold strip. intros H.
  destruct (rstrip_prefix (lstrip s)) as (post & E & _).
  rewrite H in E. simpl in E. now apply lstrip_head in E.
Qed.

Lemma strip_last (s : str) (c : char) (r : str) :
  rev (strip s) = c :: r -> isspace c = false.
Proof.
  unfold strip, rstrip. rewrite rev_involutive. apply lstrip_head.
Qed.

Lemma strip_nonempty_has_char (s : str) :
  truthy (strip s) = true -> exists c, In c s /\ isspace c = false.
Proof.
  destruct (strip s) as [|c r] eqn:E; [discriminate|]. intros _.
  exists c. split; [apply strip_in; rewrite E; now left | now apply strip_first in E].
Qed.
End StrFacts.

Section DictLaws.
Context {K V : Type} (keqb : K -> K -> bool).
Hypothesis keqb_eq : forall a b, keqb a b = true <-> a = b.

Lemma keqb_refl (k : K) : keqb k k = true.
Proof. now apply keqb_eq. Qed.

Lemma keqb_neq (a b : K) : keqb a b = false <-> a <> b.
Proof.
  split.
  - intros E H. apply keqb_eq in H. congruence.
  - intros H. destruct (keqb a b) eqn:E; [|reflexivity].
    apply keqb_eq in E. contradiction.
Qed.

Lemma get_set (d : PyDict.dict K V) (k0 k : K) (v0 : V) :
  PyDict.get keqb (PyDict.set keqb d k0 v0) k =
  if keqb k k0 then Some v0 else PyDict.get keqb d k.
Proof.
  induction d as [|[k' v'] d IH]; simpl; [reflexivity|].
  destruct (keqb k0 k') eqn:E0; simpl.
  - apply keqb_eq in E0. subst k'. now destruct (keqb k k0).
  - rewrite IH. destruct (keqb k k') eqn:E1, (keqb k k0) eqn:E2; try reflexivity.
    apply keqb_eq in E1, E2. subst. rewrite keqb_refl in E0. discriminate.
Qed.

Lemma set_keys_in (d : PyDict.dict K V) (k x : K) (v : V) :
  In x (PyDict.keys (PyDict.set keqb d k v)) -> In x (PyDict.keys d) \/ x = k.
Proof.
  induction d as [|[k' v'] d IH]; simpl.
  - intros [E|[]]. now right.
  - destruct (keqb k k'); simpl.
    + intros [E|H]; left; [now left | now right].
    + intros [E|H]; [left; now left|].
      destruct (IH H) as [H'|H']; [left; now right | now right].
Qed.

Lemma set_keys_nodup (d : PyDict.dict K V) (k : K) (v : V) :
  NoDup (PyDict.keys d) -> NoDup (PyDict.keys (PyDict.set keqb d k v)).
Proof.
  induction d as [|[k' v'] d IH]; simpl; intros H.
  - constructor; [intros [] | constructor].
  - inversion H as [|? ? Hk Hd]; subst.
    destruct (keqb k k') eqn:E; simpl; [exact H|].
    constructor; [|now apply IH].
    intros Hin. apply set_keys_in in Hin. destruct Hin as [Hin| ->].
    + now apply Hk.
    + rewrite keqb_refl in E. discriminate.
Qed.

Lemma fold_set_nodup (l : list (K * V)) :
  forall d : PyDict.dict K V,
    NoDup (PyDict.keys d) ->
    NoDup (PyDict.keys (fold_left (fun d kv => PyDict.set keqb d (fst kv) (snd kv)) l d)).
Proof.
  induction l as [|[k v] l IH]; intros d H; simpl; [exact H|].
  apply IH. now apply set_keys_nodup.
Qed.

Lemma of_pairs_nodup (l : list (K * V)) :
  NoDup (PyDict.keys (PyDict.of_pairs keqb l)).
Proof. apply fold_set_nodup. constructor. Qed.

Lemma get_in (d : PyDict.dict K V) (k : K) (v : V) :
  PyDict.get keqb d k = Some v -> In (k, v) d.
Proof.
  induction d as [|[k' v'] d IH]; simpl; [discriminate|].
  destruct (keqb k k') eqn:E.
  - apply keqb_eq in E. intros H. inversion H. subst. now left.
  - intros H. right. now apply IH.
Qed.

Lemma in_get (d : PyDict.dict K V) (k : K) (v : V) :
  NoDup (PyDict.keys d) -> In (k, v) d -> PyDict.get keqb d k = Some v.
Proof.
  induction d as [|[k' v'] d IH]; simpl; intros Hn Hin; [contradiction|].
  inversion Hn as [|? ? Hk Hd]; subst.
  destruct Hin as [E|Hin].
  - inversion E. subst. now rewrite keqb_refl.
  - destruct (keqb k k') eqn:E.
    + apply keqb_eq in E. subst. exfalso. apply Hk.
      change k' with (fst (k', v)). now apply in_map.
    + now apply IH.
Qed.

Lemma fold_set_get (l : list (K * V)) (k : K) (v : V) :
  forall d : PyDict.dict K V,
    PyDict.get keqb (fold_left (fun d kv => PyDict.set keqb d (fst kv) (snd kv)) l d) k
      = Some v ->
    In (k, v) l \/ PyDict.get keqb d k = Some v.
Proof.
  induction l as [|[k0 v0] l IH]; intros d H; simpl in *; [now right|].
  destruct (IH _ H) as [Hin|Hg]; [left; now right|].
  rewrite get_set in Hg. destruct (keqb k k0) eqn:E; [|now right].
  apply keqb_eq in E. inversion Hg. subst. left. now left.
Qed.

Lemma fold_set_miss (l : list (K * V)) (k : K) :
  forall d : PyDict.dict K V,
    ~ In k (map fst l) ->
    PyDict.get keqb (fold_left (fun d kv => PyDict.set keqb d (fst kv) (snd kv)) l d) k
      = PyDict.get keqb d k.
Proof.
  induction l as [|[k0 v0] l IH]; intros d H; simpl in *; [reflexivity|].
  rewrite IH by tauto. rewrite get_set.
  destruct (keqb k k0) eqn:E; [|reflexivity].
  apply keqb_eq in E. subst. tauto.
Qed.

Lemma fold_set_hit (l : list (K * V)) (k : K) (v : V) :
  forall d : PyDict.dict K V,
    NoDup (map fst l) -> In (k, v) l ->
    PyDict.get keqb (fold_left (fun d kv => PyDict.set keqb d (fst kv) (snd kv)) l d) k
      = Some v.
Proof.
  induction l as [|[k0 v0] l IH]; intros d Hn Hin; simpl in *; [contradiction|].
  inversion Hn as [|? ? Hk Hd]; subst.
  destruct Hin as [E|Hin].
  - inversion E. subst. rewrite fold_set_miss by exact Hk.
    rewrite get_set. now rewrite keqb_refl.
  - now apply IH.
Qed.
End DictLaws.

(** ** Tokenizer, continued *)
Section TokenizerLaws.
Import PyStr Tokenizer.

Lemma join_singletons (text : str) : join (map (fun c => [c]) text) = text.
Proof.
  unfold join. induction text as [|c text IH]; simpl; [reflexivity|].
  now rewrite IH.
Qed.

Lemma loaded_inverse (file : vocab_file) (mfile : merges_file)
      (tok : WhisperTokenizer) :
  _load_tokenizer file mfile = Ok tok ->
  NoDup (PyDict.keys (vocab tok)) /\ inv_vocab tok = invert (vocab tok).
Proof.
  destruct file as [| |members], mfile as [| |content]; simpl;
    intros E; inversion E; subst; simpl;
    (split; [first [constructor | apply (of_pairs_nodup eqb eqb_eq)]
            | reflexivity]).
Qed.

(** The merge rules of a loaded tokenizer are those of the text of
    [merges.txt]; a [merges.txt] that cannot be read makes the
    construction raise, whatever [vocab.json] holds. *)
Lemma loaded_merges (file : vocab_file) (content : str) (tok : WhisperTokenizer) :
  _load_tokenizer file (MergesText content) = Ok tok ->
  merges tok = Merges.parse_merges content.
Proof.
  destruct file; simpl; intros E; inversion E; reflexivity.
Qed.

Lemma unreadable_merges_raise (file : vocab_file) :
  _load_tokenizer file UnreadableMerges = Raise ExternalError.
Proof. destruct file; reflexivity. Qed.

(** X1. In a tokenizer as [_load_tokenizer] builds it, the inverse
    table answers only with entries of the vocabulary: when an id
    decodes to a token string, that string encodes to this id. *)
Theorem inv_vocab_entries_come_from_vocab :
  forall (file : vocab_file) (mfile : merges_file) (tok : WhisperTokenizer)
         (id : Z) (s : str),
    _load_tokenizer file mfile = Ok tok ->
    PyDict.get Z.eqb (inv_vocab tok) id = Some s ->
    PyDict.get eqb (vocab tok) s = Some id.
Proof.
  intros file mfile tok id s Hl Hg.
  destruct (loaded_inverse file mfile tok Hl) as [Hn Hi].
  rewrite Hi in Hg. unfold invert, PyDict.of_pairs in Hg.
  apply (fold_set_get Z.eqb Z.eqb_eq) in Hg.
  destruct Hg as [Hin|Hg]; [|discriminate].
  apply in_map_iff in Hin. destruct Hin as ([k v] & E & Hin).
  simpl in E. inversion E. subst.
  now apply (in_get eqb eqb_eq).
Qed.

(** X2. Round trip: when the ids of the vocabulary are pairwise
    distinct and every character of the text is a key, decoding the
    encoding of the text without skipping gives back one token string
    per character, and so the text itself up to [decode]'s clean-up
    (the two marker substitutions and the strip). *)
Theorem decode_of_encode :
  forall (file : vocab_file) (mfile : merges_file) (tok : WhisperTokenizer)
         (text : str),
    _load_tokenizer file mfile = Ok tok ->
    NoDup (PyDict.values (vocab tok)) ->
    Forall (fun c => PyDict.get eqb (vocab tok) [c] <> None) text ->
    decode_tokens tok false (encode tok text) = map (fun c => [c]) text /\
    decode tok (encode tok text) false =
      strip (replace1 C_DOT NEWLINE (replace1 G_DOT SPACE text)).
Proof.
  intros file mfile tok text Hl Hv Hall.
  destruct (loaded_inverse file mfile tok Hl) as [Hn Hi].
  assert (Hd : decode_tokens tok false (encode tok text) = map (fun c => [c]) text).
  { induction Hall as [|c text Hc _ IH]; [reflexivity|].
    unfold encode in *. simpl. rewrite IH.
    destruct (PyDict.get eqb (vocab tok) [c]) as [id|] eqn:E; [|contradiction].
    rewrite (get_or_cases eqb (vocab tok) [c]), E.
    assert (Hg : PyDict.get Z.eqb (inv_vocab tok) id = Some [c]).
    { rewrite Hi. unfold invert, PyDict.of_pairs.
      apply (fold_set_hit Z.eqb Z.eqb_eq).
      - rewrite map_map. exact Hv.
      - apply in_map_iff. exists ([c], id). split; [reflexivity|].
        now apply (get_in eqb eqb_eq). }
    rewrite (get_or_cases Z.eqb), Hg. reflexivity. }
  split; [exact Hd|].
  unfold decode. now rewrite Hd, join_singletons.
Qed.

Lemma replace1_in (old new c : char) (s : str) :
  In c (replace1 old new s) -> c = new \/ (c <> old /\ In c s).
Proof.
  unfold replace1. intros H. apply in_map_iff in H.
  destruct H as (x & E & Hin). destruct (N.eqb x old) eqn:Ex.
  - now left.
  - right. subst. split; [now apply N.eqb_neq | exact Hin].
Qed.

(** X3. The text [decode] returns, in either mode, holds neither of the
    two marker characters (U+0120, U+010A), and neither starts nor ends
    with whitespace. *)
Theorem decode_output_is_clean :
  forall (tok : WhisperTokenizer) (ids : list Z) (skip_special_tokens : bool),
    let text := decode tok ids skip_special_tokens in
    ~ In G_DOT text /\ ~ In C_DOT text /\
    match text with [] => True | c :: _ => isspace c = false end /\
    match rev text with [] => True | c :: _ => isspace c = false end.
Proof.
  intros tok ids skip text. subst text. unfold decode. cbv zeta.
  repeat split.
  - intros H. apply strip_in, replace1_in in H.
    destruct H as [H|[_ H]]; [discriminate|].
    apply replace1_in in H. destruct H as [H|[H _]]; [discriminate | now apply H].
  - intros H. apply strip_in, replace1_in in H.
    destruct H as [H|[H _]]; [discriminate | now apply H].
  - destruct (strip _) as [|c r] eqn:E; [exact I | now apply strip_first in E].
  - destruct (rev (strip _)) as [|c r] eqn:E; [exact I | now apply strip_last in E].
Qed.

(** X4. On ids that are all below end-of-text (50257) the flag makes
    no difference: [decode] with and without [skip_special_tokens]
    return the same text. *)
Theorem decode_modes_agree_below_eot :
  forall (tok : WhisperTokenizer) (ids : list Z),
    Forall (fun id => id < EOT_TOKEN) ids ->
    decode tok ids true = decode tok ids false.
Proof.
  intros tok ids H. unfold decode. do 4 f_equal.
  induction H as [|id ids Hid _ IH]; [reflexivity|].
  simpl. unfold EOT_TOKEN, SOT_TOKEN in *.
  replace (50258 <=? id) with false by lia.
  replace (id =? 50257) with false by lia.
  now rewrite IH.
Qed.

(** X5. The decoder seed, for every language code and task: it starts
    with start-of-transcript, has four tokens with the no-timestamps
    token and three without, repeats no token and never holds
    end-of-text. *)
Theorem decoder_seed_is_well_formed :
  forall (language task : str) (no_timestamps : bool),
    let seed := build_decoder_input language task no_timestamps in
    hd_error seed = Some SOT_TOKEN /\
    length seed = (if no_timestamps then 4 else 3)%nat /\
    NoDup seed /\
    ~ In EOT_TOKEN seed.
Proof.
  intros language task no_timestamps seed. subst seed.
  pose proof (language_token_range language) as Hl.
  unfold build_decoder_input.
  unfold SOT_TOKEN, EOT_TOKEN, TRANSLATE_TOKEN, TRANSCRIBE_TOKEN, NO_TIMESTAMPS_TOKEN.
  destruct (eqb task (lit "translate")), no_timestamps; simpl;
    (split; [reflexivity|]); (split; [reflexivity|]);
    (split; [repeat constructor; simpl; intuition lia | intuition lia]).
Qed.
End TokenizerLaws.

(** ** merges.txt *)
Section MergesFacts.
Import PyStr Merges.

Lemma split_ws_pieces (s : str) :
  forall cur : str,
    no_space cur = true ->
    Forall (fun piece => piece <> [] /\ no_space piece = true) (split_ws cur s).
Proof.
  assert (Hrev : forall cur, cur <> [] -> no_space cur = true ->
                             rev cur <> [] /\ no_space (rev cur) = true).
  { intros cur Hne Hc. split.
    - intros E. apply Hne. apply (f_equal (@rev char)) in E.
      now rewrite rev_involutive in E.
    - unfold no_space in *. rewrite forallb_forall in *.
      intros c Hin. apply Hc. now apply in_rev. }
  assert (Ht : forall cur : str, truthy cur = true -> cur <> []).
  { intros [|x cur]; [discriminate | discriminate]. }
  induction s as [|c s IH]; intros cur Hc; cbn [split_ws].
  - destruct (truthy cur) eqn:Et; [|constructor].
    constructor; [|constructor]. apply Hrev; [now apply Ht | exact Hc].
  - destruct (isspace c) eqn:Es.
    + destruct (truthy cur) eqn:Et; [|now apply IH].
      constructor; [apply Hrev; [now apply Ht | exact Hc] | now apply IH].
    + apply IH. unfold no_space in *. simpl. now rewrite Es, Hc.
Qed.

Lemma split_ws_nonempty (s : str) :
  forall cur : str,
    cur <> [] \/ (exists c, In c s /\ isspace c = false) ->
    split_ws cur s <> [].
Proof.
  induction s as [|c s IH]; intros cur H; simpl.
  - destruct H as [H|(c & [] & _)].
    destruct cur; [contradiction | discriminate].
  - destruct (isspace c) eqn:Es.
    + destruct cur as [|x cur]; simpl; [|discriminate].
      apply IH. right. destruct H as [H|(c' & [E|Hin] & Hc')]; [contradiction| |].
      * subst. congruence.
      * now exists c'.
    + apply IH. left. discriminate.
Qed.


(** X6. Every merge rule read from [merges.txt] has at least one part,
    and each part is a non-empty string without whitespace: blank lines
    give no rule. *)
Theorem merges_are_nonempty_and_space_free :
  forall content : str,
    Forall (fun rule =>
              rule <> [] /\
              Forall (fun part => part <> [] /\ no_space part = true) rule)
           (parse_merges content).
Proof.
  intros content. unfold parse_merges. cbv zeta.
  rewrite Forall_map. apply Forall_forall. intros line Hin.
  apply filter_In in Hin. destruct Hin as [_ Ht].
  split.
  - apply split_ws_nonempty. right. now apply strip_nonempty_has_char.
  - now apply split_ws_pieces.
Qed.

End MergesFacts.

(** ** Feature extraction, continued *)
Section FeatureLaws.
Import PyStr Tokenizer Whisper.
Context {R : Runtime}.

Lemma slice_of_prefix (n : nat) (lo hi : Z) (w : list float) :
  0 <= lo -> hi <= Z.of_nat n ->
  slice lo hi (firstn n w) = slice lo hi w.
Proof.
  intros Hlo Hhi. unfold slice.
  rewrite skipn_firstn_comm, firstn_firstn. f_equal. lia.
Qed.

(** The columns of the STFT of a 30-second wave read its first 479920
    samples only. *)
Lemma stft_reads_prefix (window wa wb : list float) :
  firstn (Z.to_nat 479920) wa = firstn (Z.to_nat 479920) wb ->
  stft_columns 400 160 2998 window wa = stft_columns 400 160 2998 window wb.
Proof.
  intros H. unfold stft_columns. apply map_ext_in. intros i Hi.
  apply in_seq in Hi. cbv zeta.
  assert (E : slice (Z.of_nat i * 160) (Z.of_nat i * 160 + 400) wa =
              slice (Z.of_nat i * 160) (Z.of_nat i * 160 + 400) wb).
  { rewrite <- (slice_of_prefix (Z.to_nat 479920) _ _ wa) by lia.
    rewrite <- (slice_of_prefix (Z.to_nat 479920) _ _ wb) by lia.
    now rewrite H. }
  now rewrite E.
Qed.

Lemma mel_of_equal_prefixes (a b : list float) :
  firstn (Z.to_nat 479920) (pad_or_trim (30 * sample_rate) a) =
  firstn (Z.to_nat 479920) (pad_or_trim (30 * sample_rate) b) ->
  _compute_mel_spectrogram a = _compute_mel_spectrogram b.
Proof.
  intros H. unfold _compute_mel_spectrogram. cbv zeta.
  rewrite !pad_or_trim_length by (unfold sample_rate; lia).
  rewrite frames_of_30_seconds.
  now rewrite (stft_reads_prefix _ _ _ H).
Qed.

Lemma padded_prefix_of_cut (n t : nat) (a : list float) :
  (n <= t)%nat ->
  firstn n (firstn n a ++ repeat zero (t - length (firstn n a))) =
  firstn n (a ++ repeat zero (t - length a)).
Proof.
  intros Hnt. destruct (Nat.le_gt_cases (length a) n) as [Hl|Hl].
  - now rewrite (firstn_all2 a) by exact Hl.
  - rewrite !firstn_app, firstn_firstn, Nat.min_id, length_firstn.
    replace (n - Nat.min n (length a))%nat with 0%nat by lia.
    replace (n - length a)%nat with 0%nat by lia.
    reflexivity.
Qed.

(** X8. The spectrogram reads the first 479920 samples only (2997
    hops of 160 plus one window of 400): cutting the waveform there, or
    changing anything after, changes neither the spectrogram nor the
    tensor given to the encoder. *)
Theorem mel_reads_first_479920_samples :
  forall (self : WhisperASR) (audio : list float),
    2997 * 160 + 400 = 479920 /\
    _compute_mel_spectrogram (firstn (Z.to_nat 479920) audio) =
      _compute_mel_spectrogram audio /\
    encoder_features self (firstn (Z.to_nat 479920) audio) =
      encoder_features self audio.
Proof.
  intros self audio.
  assert (E : _compute_mel_spectrogram (firstn (Z.to_nat 479920) audio) =
              _compute_mel_spectrogram audio).
  { apply mel_of_equal_prefixes.
    rewrite !pad_or_trim_firstn, !firstn_firstn.
    replace (Nat.min (Z.to_nat 479920) (Z.to_nat (30 * sample_rate)))
      with (Z.to_nat 479920) by (unfold sample_rate; lia).
    apply padded_prefix_of_cut. unfold sample_rate. lia. }
  split; [reflexivity|]. split; [exact E|].
  unfold encoder_features. cbv zeta. now rewrite E.
Qed.

Lemma pad_or_trim_silence (t : Z) (audio : list float) (k : nat) :
  Z.of_nat (length audio) + Z.of_nat k <= t ->
  pad_or_trim t (audio ++ repeat zero k) = pad_or_trim t audio.
Proof.
  intros H. rewrite !pad_or_trim_firstn, <- app_assoc, <- repeat_app.
  rewrite length_app, repeat_length. do 3 f_equal. lia.
Qed.

(** X9. Silence appended to a waveform that stays within 30 seconds
    changes nothing: the padding would have put the same zeros there. *)
Theorem trailing_silence_is_ignored :
  forall (self : WhisperASR) (audio : list float) (k : nat),
    Z.of_nat (length audio) + Z.of_nat k <= 480000 ->
    _compute_mel_spectrogram (audio ++ repeat zero k) =
      _compute_mel_spectrogram audio /\
    encoder_features self (audio ++ repeat zero k) = encoder_features self audio.
Proof.
  intros self audio k H.
  assert (E : _compute_mel_spectrogram (audio ++ repeat zero k) =
              _compute_mel_spectrogram audio).
  { unfold _compute_mel_spectrogram. cbv zeta.
    now rewrite pad_or_trim_silence by (unfold sample_rate; lia). }
  split; [exact E|]. unfold encoder_features. cbv zeta. now rewrite E.
Qed.

Lemma mul_length (a b : list float) :
  length (mul a b) = Nat.min (length a) (length b).
Proof.
  revert b. induction a as [|x a IH]; intros [|y b]; simpl; try reflexivity.
  now rewrite IH.
Qed.

Lemma frame_is_full (audio : list float) (i : nat) :
  (i < 2998)%nat ->
  Z.of_nat (length (slice (Z.of_nat i * 160) (Z.of_nat i * 160 + 400)
                          (pad_or_trim (30 * sample_rate) audio))) = 400.
Proof.
  intros Hi. unfold slice. rewrite length_firstn, length_skipn.
  pose proof (pad_or_trim_length (30 * sample_rate) audio) as Hl.
  unfold sample_rate in *. lia.
Qed.

(** X10. Every one of the 2998 frames of the padded wave is a full
    window of 400 samples, so the test [len(frame) == n_fft] never
    fails and no STFT column is left at zero; each column has 201 bins,
    as many as each row of the 80-row filterbank has weights, which is
    what the matrix product needs. *)
Theorem stft_frames_are_full :
  forall audio : list float,
    let wave := pad_or_trim (30 * sample_rate) audio in
    let window := hanning (Z.to_nat 400) in
    let stft := stft_columns 400 160 2998 window wave in
    stft = map (fun i =>
                  rfft (mul (slice (Z.of_nat i * 160) (Z.of_nat i * 160 + 400) wave)
                            window))
               (seq 0 (Z.to_nat 2998)) /\
    Forall (fun column => length column = 201%nat) stft /\
    length (_create_mel_filterbank 400 80) = 80%nat /\
    Forall (fun row => length row = 201%nat) (_create_mel_filterbank 400 80).
Proof.
  intros audio wave window stft.
  assert (Hw : length window = 400%nat).
  { subst window. unfold hanning. now rewrite length_map, length_seq. }
  assert (E : stft = map (fun i =>
                  rfft (mul (slice (Z.of_nat i * 160) (Z.of_nat i * 160 + 400) wave)
                            window))
               (seq 0 (Z.to_nat 2998))).
  { subst stft. unfold stft_columns. apply map_ext_in. intros i Hi.
    apply in_seq in Hi. cbv zeta.
    subst wave. rewrite frame_is_full by lia. reflexivity. }
  split; [exact E|]. split; [|split].
  - rewrite E, Forall_map. apply Forall_forall. intros i Hi. apply in_seq in Hi.
    unfold rfft. rewrite length_map, length_seq, mul_length, Hw.
    pose proof (frame_is_full audio i ltac:(lia)) as Hf. fold wave in Hf.
    replace (length (slice (Z.of_nat i * 160) (Z.of_nat i * 160 + 400) wave))
      with 400%nat by lia.
    reflexivity.
  - unfold _create_mel_filterbank. cbv zeta. now rewrite length_map, length_seq.
  - unfold _create_mel_filterbank. cbv zeta. rewrite Forall_map.
    apply Forall_forall. intros i _. unfold filter_row. cbv zeta.
    now rewrite length_map, length_seq.
Qed.

(** X11. A negative frame count is read by the slice [mel[:, :expected]]
    as a count from the end: the tensor then has 2998 + expected
    columns (none below -2998), still 80 rows. *)
Theorem negative_expected_frames_cut_from_the_end :
  forall (self : WhisperASR) (audio : list float),
    expected_frames self < 0 ->
    length (encoder_features self audio) = 80%nat /\
    Forall (fun row => Z.of_nat (length row) = Z.max 0 (2998 + expected_frames self))
           (encoder_features self audio).
Proof.
  intros self audio He. unfold encoder_features. cbv zeta.
  unfold fit_frames. rewrite mel_shape. unfold frame_adjustment.
  replace (2998 <? expected_frames self) with false by lia.
  replace (expected_frames self <? 2998) with true by lia.
  split.
  - rewrite length_map. pose proof (mel_rows audio). lia.
  - rewrite Forall_map. eapply Forall_impl; [|apply mel_columns].
    intros row Hrow. cbv beta in *. unfold slice_to.
    replace (0 <=? expected_frames self) with false by lia.
    rewrite length_firstn. lia.
Qed.
End FeatureLaws.

(** ** Greedy decoding, continued *)
Section DecodingLaws.
Import PyStr Tokenizer Whisper.
Context {R : Runtime}.

(** From any state: the tokens the loop appends are the decoder's
    answers, call after call, none of them end-of-text, and the loop
    stops short of its budget only on an exception or on end-of-text. *)
Lemma greedy_loop_outputs (step : nat -> list Z -> option Z) (budget : nat) :
  forall (i : nat) (st : loop_state),
    exists suffix : list Z,
      let final := snd (greedy_loop step budget i st) in
      generated_tokens final = generated_tokens st ++ suffix /\
      tokens final = tokens st ++ suffix /\
      Forall (fun t => t <> EOT_TOKEN) suffix /\
      map (fun k => step (i + k)%nat (tokens st ++ firstn k suffix))
          (seq 0 (length suffix)) = map Some suffix /\
      (length suffix = budget \/
       step (i + length suffix)%nat (tokens st ++ suffix) = None \/
       step (i + length suffix)%nat (tokens st ++ suffix) = Some EOT_TOKEN).
Proof.
  induction budget as [|budget IH]; intros i st.
  - exists []. simpl. rewrite !app_nil_r. repeat split; auto.
  - simpl. destruct (step i (tokens st)) as [next_token|] eqn:Es.
    + destruct (next_token =? EOT_TOKEN) eqn:Ee.
      * exists []. simpl. rewrite !app_nil_r, Nat.add_0_r.
        apply Z.eqb_eq in Ee. subst. repeat split; auto.
      * destruct (IH (S i)
                     {| tokens := tokens st ++ [next_token];
                        generated_tokens := generated_tokens st ++ [next_token] |})
          as (suffix & Hg & Ht & Hn & Hm & Hstop).
        destruct (greedy_loop step budget (S i) _) as [calls final].
        simpl in *. exists (next_token :: suffix).
        rewrite Hg, Ht, <- !app_assoc. simpl.
        split; [reflexivity|]. split; [reflexivity|].
        split; [constructor; [now apply Z.eqb_neq | exact Hn]|].
        split.
        -- rewrite Nat.add_0_r, app_nil_r, Es. f_equal.
           rewrite seq_from_one, <- Hm. apply map_ext. intros k.
           now rewrite Nat.add_succ_r, <- app_assoc.
        -- rewrite Nat.add_succ_r.
           rewrite <- !app_assoc in Hstop. simpl in Hstop.
           destruct Hstop as [H|[H|H]]; [left; lia | right; now left | right; now right].
    + exists []. simpl. rewrite !app_nil_r, Nat.add_0_r. repeat split; auto.
Qed.

(** X12. The generated tokens are the decoder's answers in order: the
    [k]-th one is what the [k]-th call returned on the seed followed by
    the [k] tokens before it; end-of-text is never among them. *)
Theorem generated_tokens_are_decoder_answers :
  forall (step : nat -> list Z -> option Z) (seed : list Z),
    let generated := generated_tokens (snd (decoding_run step seed)) in
    ~ In EOT_TOKEN generated /\
    map (fun k => step k (seed ++ firstn k generated)) (seq 0 (length generated))
      = map Some generated.
Proof.
  intros step seed. unfold decoding_run.
  destruct (greedy_loop_outputs step max_tokens 0
              {| tokens := seed; generated_tokens := [] |}) as (suffix & H).
  remember (greedy_loop step max_tokens 0 _) as run eqn:Erun. clear Erun.
  simpl in H. destruct H as (Hg & _ & Hn & Hm & _).
  cbv zeta. rewrite Hg. split; [|exact Hm].
  intros Hin. rewrite Forall_forall in Hn. now apply (Hn _ Hin).
Qed.

(** X13. Why the loop stops: with fewer than 50 generated tokens, the
    next decoder call (on the seed followed by all of them) raised or
    answered end-of-text; a decoder that does neither fills the
    budget. *)
Theorem decoding_stops_on_exception_or_eot :
  forall (step : nat -> list Z -> option Z) (seed : list Z),
    let generated := generated_tokens (snd (decoding_run step seed)) in
    length generated = 50%nat \/
    step (length generated) (seed ++ generated) = None \/
    step (length generated) (seed ++ generated) = Some EOT_TOKEN.
Proof.
  intros step seed. unfold decoding_run.
  destruct (greedy_loop_outputs step max_tokens 0
              {| tokens := seed; generated_tokens := [] |}) as (suffix & H).
  remember (greedy_loop step max_tokens 0 _) as run eqn:Erun. clear Erun.
  simpl in H. destruct H as (Hg & _ & _ & _ & Hstop).
  cbv zeta. rewrite Hg. exact Hstop.
Qed.

Lemma argmax_from_range (v : list float) :
  forall (best : float) (best_i i : nat),
    (best_i < i)%nat -> (argmax_from best best_i i v < i + length v)%nat.
Proof.
  induction v as [|x v IH]; intros best best_i i H; simpl; [lia|].
  destruct (fltb best x).
  - specialize (IH x i (S i)). lia.
  - specialize (IH best best_i (S i)). lia.
Qed.

(** X14. The next token is an index into the logits of the last
    position: not negative and below their number.  Logits that are
    empty, like a decoder call that raises, give no token. *)
Theorem next_token_is_a_logit_index :
  forall (dec : DecoderSession) (encoder_hidden : hidden) (token_input : list Z),
    match dec_run dec token_input encoder_hidden with
    | Raise _ => next_token_of dec encoder_hidden token_input = None
    | Ok [] => next_token_of dec encoder_hidden token_input = None
    | Ok logits =>
        exists t, next_token_of dec encoder_hidden token_input = Some t /\
                  0 <= t < Z.of_nat (length logits)
    end.
Proof.
  intros dec h toks. unfold next_token_of.
  destruct (dec_run dec toks h) as [[|x v]|e]; try reflexivity.
  simpl. eexists. split; [reflexivity|].
  pose proof (argmax_from_range v x 0%nat 1%nat ltac:(lia)). lia.
Qed.

Lemma greedy_loop_stops_at_once (step : nat -> list Z -> option Z)
      (budget i : nat) (st : loop_state) :
  step i (tokens st) = None \/ step i (tokens st) = Some EOT_TOKEN ->
  greedy_loop step (S budget) i st = ([st], st).
Proof.
  intros [H|H]; simpl; rewrite H; reflexivity.
Qed.

(** X15. When the first decoder call raises or answers end-of-text,
    nothing is generated and the text is the placeholder
    "[Audio in <name>]" with confidence 0.60, where <name> is the
    engine's name for the language code, or the code itself when the
    engine has no name for it. *)
Theorem empty_generation_gives_placeholder :
  forall (self : WhisperASR) (tokenizer : WhisperTokenizer) (dec : DecoderSession)
         (encoder_hidden : hidden) (language : str),
    _tokenizer self = Some tokenizer ->
    (let seed := build_decoder_input language (lit "transcribe") true in
     next_token_of dec encoder_hidden seed = None \/
     next_token_of dec encoder_hidden seed = Some EOT_TOKEN) ->
    _decode_with_decoder self dec encoder_hidden language =
      Ok (lit "[Audio in " ++ PyDict.get_or eqb languages language language ++ lit "]",
          f_lit (60 # 100)).
Proof.
  intros self tokenizer dec h language Ht Hs. cbv zeta in Hs.
  unfold _decode_with_decoder, decoding_run, max_tokens. rewrite Ht. cbv zeta.
  rewrite greedy_loop_stops_at_once by exact Hs. reflexivity.
Qed.

Lemma decode_with_decoder_confidence (self : WhisperASR) (dec : DecoderSession)
      (encoder_hidden : hidden) (language : str) (text : str) (confidence : float) :
  _decode_with_decoder self dec encoder_hidden language = Ok (text, confidence) ->
  confidence = f_lit (85 # 100) \/ confidence = f_lit (60 # 100).
Proof.
  unfold _decode_with_decoder. destruct (_tokenizer self); [|discriminate].
  cbv zeta. destruct (decoding_run _ _) as [calls final].
  destruct (generated_tokens final); intros E; inversion E; auto.
Qed.
End DecodingLaws.

(** ** Loading and transcription, continued *)
Section EngineLaws.
Import PyStr Tokenizer Whisper.
Context {R : Runtime}.

Lemma int16_le_range (lo hi : Byte.byte) : -32768 <= int16_le lo hi <= 32767.
Proof.
  unfold int16_le. cbv zeta.
  pose proof (Byte.to_N_bounded lo). pose proof (Byte.to_N_bounded hi).
  destruct (_ <? 32768) eqn:E; lia.
Qed.

Lemma frombuffer_int16_cases (n : nat) :
  forall data : list Byte.byte,
    (length data <= n)%nat ->
    match frombuffer_int16 data with
    | Ok v =>
        (2 * length v = length data)%nat /\
        Forall (fun x => -32768 <= x <= 32767) v
    | Raise e => e = ValueError /\ Nat.odd (length data) = true
    end.
Proof.
  induction n as [|n IH]; intros data Hn.
  - destruct data; [|simpl in Hn; lia]. simpl. split; [reflexivity | constructor].
  - destruct data as [|lo [|hi rest]].
    + simpl. split; [reflexivity | constructor].
    + simpl. now split.
    + cbn [frombuffer_int16]. specialize (IH rest ltac:(simpl in Hn; lia)).
      destruct (frombuffer_int16 rest) as [v|e].
      * destruct IH as [Hl Hr]. split; [simpl; lia|].
        constructor; [apply int16_le_range | exact Hr].
      * destruct IH as [He Ho]. split; [exact He|].
        change (length (lo :: hi :: rest)) with (S (S (length rest))).
        now rewrite Nat.odd_succ_succ.
Qed.

(** X16. Raw PCM input: a buffer of even size gives one sample for
    every two bytes, each a 16-bit signed value scaled by 1/32768; a
    buffer of odd size is refused with ValueError. *)
Theorem pcm_bytes_to_samples :
  forall data : list Byte.byte,
    match frombuffer_int16 data with
    | Ok v =>
        (2 * length v = length data)%nat /\
        Forall (fun x => -32768 <= x <= 32767) v /\
        as_waveform (PCM data) =
          Ok (map (fun x => fdiv (to_f32 (f_of_Z x)) (f_lit 32768)) v)
    | Raise _ =>
        Nat.odd (length data) = true /\
        as_waveform (PCM data) = Raise ValueError
    end.
Proof.
  intros data.
  pose proof (frombuffer_int16_cases (length data) data (le_n _)) as H.
  unfold as_waveform.
  destruct (frombuffer_int16 data) as [v|e].
  - destruct H as [Hl Hr]. now repeat split.
  - destruct H as [-> Ho]. now split.
Qed.

(** X17. What a returned transcription looks like: it echoes the
    language code, its confidence is 0.85 or 0.60, and it has exactly
    one segment, from 0 to the number of samples divided by 16000,
    carrying the same text and confidence; the duration is taken from
    the two clock readings of the call. *)
Theorem transcription_has_one_segment :
  forall (self : WhisperASR) (audio : audio_input) (lang : str) (tick : nat),
    match transcribe self audio lang tick with
    | Raise _ => True
    | Ok r =>
        language r = lang /\
        (confidence r = f_lit (85 # 100) \/ confidence r = f_lit (60 # 100)) /\
        duration_ms r = ms_between (perf_counter tick) (perf_counter (S tick)) /\
        exists samples,
          as_waveform audio = Ok samples /\
          segments r =
            [ {| seg_start := zero;
                 seg_end := fdiv (f_of_Z (Z.of_nat (length samples))) (f_of_Z 16000);
                 seg_text := text r;
                 seg_confidence := confidence r |} ]
    end.
Proof.
  intros self audio lang tick. unfold transcribe. cbv zeta.
  destruct (_encoder_session self) as [enc|]; [|exact I].
  destruct (_decoder_session self) as [dec|]; [|exact I].
  destruct (as_waveform audio) as [samples|]; [|exact I].
  destruct (enc_run enc _) as [h|]; [|exact I].
  destruct (_decode_with_decoder self dec h lang) as [[t c]|] eqn:E; [|exact I].
  apply decode_with_decoder_confidence in E. simpl.
  split; [reflexivity|]. split; [exact E|]. split; [reflexivity|].
  exists samples. now split.
Qed.

(** X18. After a [load] that returned, [transcribe] fails only on
    input it cannot convert or when the encoder call raises, with that
    very exception; otherwise it returns a result.  A decoder that
    raises never makes it fail. *)
Theorem transcribe_after_load :
  forall (env : LoadEnv) (self : WhisperASR) (audio : audio_input)
         (lang : str) (tick : nat),
    snd (load env self) = Ok true ->
    let engine := fst (load env self) in
    match as_waveform audio with
    | Raise e => transcribe engine audio lang tick = Raise e
    | Ok samples =>
        exists enc,
          _encoder_session engine = Some enc /\
          match enc_run enc (encoder_features engine samples) with
          | Raise e => transcribe engine audio lang tick = Raise e
          | Ok _ => exists r, transcribe engine audio lang tick = Ok r
          end
    end.
Proof.
  intros env self audio lang tick. unfold load.
  destruct (negb (onnxruntime_installed env)); [discriminate|].
  destruct (negb (path_exists env (model_path self))); [discriminate|].
  destruct (negb (path_exists env (decoder_path self))); [discriminate|].
  destruct (new_encoder_session env (model_path self)) as [enc|]; [|discriminate].
  destruct (new_decoder_session env (decoder_path self)) as [dec|]; [|discriminate].
  destruct (_load_tokenizer _) as [tok|]; [|discriminate].
  intros _. cbn [fst]. cbv zeta.
  destruct (as_waveform audio) as [samples|e] eqn:Ea.
  - exists enc. split; [reflexivity|].
    destruct (enc_run enc _) as [h|e] eqn:Er.
    + eapply transcribe_succeeds; try reflexivity; eassumption.
    + unfold transcribe. cbn [_encoder_session _decoder_session]. now rewrite Ea, Er.
  - unfold transcribe. cbn [_encoder_session _decoder_session]. now rewrite Ea.
Qed.

(** X19. Loading twice from the same environment is loading once: the
    second call leaves the engine as the first left it and has the
    same outcome, whether the first returned or raised. *)
Theorem load_is_idempotent :
  forall (env : LoadEnv) (self : WhisperASR),
    load env (fst (load env self)) = load env self.
Proof.
  intros env self. unfold load.
  destruct (negb (onnxruntime_installed env)) eqn:E1; [reflexivity|].
  destruct (negb (path_exists env (model_path self))) eqn:E2;
    [cbn [fst]; now rewrite E2|].
  destruct (negb (path_exists env (decoder_path self))) eqn:E3;
    [cbn [fst]; now rewrite E2, E3|].
  destruct (new_encoder_session env (model_path self)) as [enc|e] eqn:E4;
    [|cbn [fst]; now rewrite E2, E3, E4].
  destruct (new_decoder_session env (decoder_path self)) as [dec|e] eqn:E5.
  - destruct (_load_tokenizer _) as [tok|e] eqn:E6;
      cbn [fst model_path decoder_path use_quantized _encoder_session
           _decoder_session _tokenizer _expected_frames];
      now rewrite E2, E3, E4, E5, E6.
  - cbn [fst model_path decoder_path use_quantized _encoder_session
         _decoder_session _tokenizer _expected_frames].
    now rewrite E2, E3, E4, E5.
Qed.

(** X20. A [load] that stops at the missing onnxruntime, at a missing
    model file or inside the encoder's constructor raises and leaves
    the engine exactly as it was. *)
Theorem load_failure_before_encoder_changes_nothing :
  forall (env : LoadEnv) (self : WhisperASR),
    negb (onnxruntime_installed env)
    || negb (path_exists env (model_path self))
    || negb (path_exists env (decoder_path self))
    || is_raise (new_encoder_session env (model_path self)) = true ->
    fst (load env self) = self /\ is_raise (snd (load env self)) = true.
Proof.
  intros env self H. unfold load.
  destruct (negb (onnxruntime_installed env)); [now split|].
  destruct (negb (path_exists env (model_path self))); [now split|].
  destruct (negb (path_exists env (decoder_path self))); [now split|].
  destruct (new_encoder_session env (model_path self)); [discriminate | now split].
Qed.

(** X21. After a [load] that returned, the frame count [transcribe]
    uses is the third axis of the encoder's declared input shape when
    that is a non-zero integer, and 3000 in every other case (no shape,
    fewer than three axes, a symbolic axis, or 0); it is never 0. *)
Theorem expected_frames_after_load :
  forall (env : LoadEnv) (self : WhisperASR),
    snd (load env self) = Ok true ->
    exists enc,
      new_encoder_session env (model_path self) = Ok enc /\
      _encoder_session (fst (load env self)) = Some enc /\
      expected_frames (fst (load env self)) =
        match enc_input_shape enc with
        | Some (_ :: _ :: DimInt n :: _) => if n =? 0 then 3000 else n
        | _ => 3000
        end /\
      expected_frames (fst (load env self)) <> 0.
Proof.
  intros env self. unfold load.
  destruct (negb (onnxruntime_installed env)); [discriminate|].
  destruct (negb (path_exists env (model_path self))); [discriminate|].
  destruct (negb (path_exists env (decoder_path self))); [discriminate|].
  destruct (new_encoder_session env (model_path self)) as [enc|]; [|discriminate].
  destruct (new_decoder_session env (decoder_path self)) as [dec|]; [|discriminate].
  destruct (_load_tokenizer _) as [tok|]; [|discriminate].
  intros _. exists enc. cbn [fst _encoder_session].
  split; [reflexivity|]. split; [reflexivity|].
  unfold expected_frames, probe_expected_frames. cbn [_expected_frames].
  destruct (enc_input_shape enc) as [[|d1 [|d2 [|[n|] rest]]]|];
    try (split; [reflexivity | discriminate]).
  destruct (n =? 0) eqn:En; split; try reflexivity; try discriminate.
  now apply Z.eqb_neq.
Qed.
End EngineLaws.

(** ** The further properties on scripted inputs *)
Section ScriptedLaws.
Import PyStr Tokenizer Whisper Merges.

(** The two-letter vocabulary: id 2 decodes to "b", and "b" encodes to 2. *)
Lemma inv_vocab_entries_come_from_vocab_witness :
  _load_tokenizer (Parsed Scripts.ab_members) NoMerges = Ok Scripts.ab_tokenizer /\
  PyDict.get Z.eqb (inv_vocab Scripts.ab_tokenizer) 2 = Some (lit "b") /\
  PyDict.get eqb (vocab Scripts.ab_tokenizer) (lit "b") = Some 2.
Proof.
  assert (H1 : _load_tokenizer (Parsed Scripts.ab_members) NoMerges = Ok Scripts.ab_tokenizer)
    by reflexivity.
  assert (H2 : PyDict.get Z.eqb (inv_vocab Scripts.ab_tokenizer) 2 = Some (lit "b"))
    by reflexivity.
  split; [exact H1|]. split; [exact H2|].
  exact (inv_vocab_entries_come_from_vocab _ _ _ _ _ H1 H2).
Defined.

(** "ba" survives the round trip through the two-letter vocabulary. *)
Lemma decode_of_encode_witness :
  _load_tokenizer (Parsed Scripts.ab_members) NoMerges = Ok Scripts.ab_tokenizer /\
  NoDup (PyDict.values (vocab Scripts.ab_tokenizer)) /\
  Forall (fun c => PyDict.get eqb (vocab Scripts.ab_tokenizer) [c] <> None) (lit "ba") /\
  decode_tokens Scripts.ab_tokenizer false (encode Scripts.ab_tokenizer (lit "ba"))
    = [lit "b"; lit "a"].
Proof.
  assert (H1 : _load_tokenizer (Parsed Scripts.ab_members) NoMerges = Ok Scripts.ab_tokenizer)
    by reflexivity.
  assert (H2 : NoDup (PyDict.values (vocab Scripts.ab_tokenizer))).
  { change (NoDup [1; 2]). repeat constructor; simpl; intuition discriminate. }
  assert (H3 : Forall (fun c => PyDict.get eqb (vocab Scripts.ab_tokenizer) [c] <> None)
                      (lit "ba")).
  { repeat constructor; discriminate. }
  split; [exact H1|]. split; [exact H2|]. split; [exact H3|].
  exact (proj1 (decode_of_encode _ _ _ _ H1 H2 H3)).
Defined.

Lemma decode_modes_agree_below_eot_witness :
  Forall (fun id => id < EOT_TOKEN) [2; 1] /\
  decode Scripts.ab_tokenizer [2; 1] true = decode Scripts.ab_tokenizer [2; 1] false.
Proof.
  assert (H : Forall (fun id => id < EOT_TOKEN) [2; 1]).
  { repeat constructor. }
  split; [exact H|]. exact (decode_modes_agree_below_eot Scripts.ab_tokenizer _ H).
Defined.


Lemma trailing_silence_is_ignored_witness :
  Z.of_nat (length Stub.wave) + Z.of_nat 3 <= 480000 /\
  encoder_features Stub.loaded (Stub.wave ++ repeat zero 3) =
    encoder_features Stub.loaded Stub.wave.
Proof.
  assert (H : Z.of_nat (length Stub.wave) + Z.of_nat 3 <= 480000).
  { simpl. lia. }
  split; [exact H|].
  exact (proj2 (@trailing_silence_is_ignored Stub.runtime Stub.loaded Stub.wave 3 H)).
Defined.

(** An encoder that declares -1 frames gets 2997 columns. *)
Lemma negative_expected_frames_cut_from_the_end_witness :
  expected_frames Scripts.odd_engine < 0 /\
  Forall (fun row => Z.of_nat (length row) = 2997)
         (encoder_features Scripts.odd_engine Stub.wave).
Proof.
  assert (H : @expected_frames Stub.runtime Scripts.odd_engine < 0).
  { assert (E : @expected_frames Stub.runtime Scripts.odd_engine = -1) by reflexivity.
    rewrite E. lia. }
  split; [exact H|].
  exact (proj2 (@negative_expected_frames_cut_from_the_end Stub.runtime
                  Scripts.odd_engine Stub.wave H)).
Defined.

(** A decoder that raises at once, language "hi": the placeholder
    names Hindi. *)
Lemma empty_generation_gives_placeholder_witness :
  _tokenizer Scripts.engine_failing_decoder = Some Stub.empty_tokenizer /\
  next_token_of Scripts.failing_decoder tt
                (build_decoder_input (lit "hi") (lit "transcribe") true) = None /\
  _decode_with_decoder Scripts.engine_failing_decoder Scripts.failing_decoder tt (lit "hi")
    = Ok (lit "[Audio in Hindi]", (60 # 100)%Q).
Proof.
  assert (H1 : @_tokenizer Stub.runtime Scripts.engine_failing_decoder
               = Some Stub.empty_tokenizer) by reflexivity.
  assert (H2 : @next_token_of Stub.runtime Scripts.failing_decoder tt
                 (build_decoder_input (lit "hi") (lit "transcribe") true) = None)
    by reflexivity.
  split; [exact H1|]. split; [exact H2|].
  exact (@empty_generation_gives_placeholder Stub.runtime
           Scripts.engine_failing_decoder Stub.empty_tokenizer Scripts.failing_decoder
           tt (lit "hi") H1 (or_introl H2)).
Defined.

Lemma transcribe_after_load_witness :
  snd (load Stub.env Stub.fresh) = Ok true /\
  transcribe (fst (load Stub.env Stub.fresh)) (PCM [Byte.x00]) (lit "en") 0
    = Raise ValueError.
Proof.
  assert (H : snd (@load Stub.runtime Stub.env Stub.fresh) = Ok true) by reflexivity.
  split; [exact H|].
  exact (@transcribe_after_load Stub.runtime Stub.env Stub.fresh (PCM [Byte.x00])
           (lit "en") 0%nat H).
Defined.

Lemma load_failure_before_encoder_changes_nothing_witness :
  negb (onnxruntime_installed Stub.env_no_decoder)
  || negb (path_exists Stub.env_no_decoder (model_path Stub.fresh))
  || negb (path_exists Stub.env_no_decoder (decoder_path Stub.fresh))
  || is_raise (new_encoder_session Stub.env_no_decoder (model_path Stub.fresh)) = true /\
  fst (load Stub.env_no_decoder Stub.fresh) = Stub.fresh.
Proof.
  assert (H : negb (@onnxruntime_installed Stub.runtime Stub.env_no_decoder)
              || negb (path_exists Stub.env_no_decoder (model_path Stub.fresh))
              || negb (path_exists Stub.env_no_decoder (decoder_path Stub.fresh))
              || is_raise (new_encoder_session Stub.env_no_decoder (model_path Stub.fresh))
              = true) by reflexivity.
  split; [exact H|].
  exact (proj1 (@load_failure_before_encoder_changes_nothing Stub.runtime
                  Stub.env_no_decoder Stub.fresh H)).
Defined.

Lemma expected_frames_after_load_witness :
  snd (load Stub.env Stub.fresh) = Ok true /\
  exists enc,
    new_encoder_session Stub.env (model_path Stub.fresh) = Ok enc /\
    _encoder_session (fst (load Stub.env Stub.fresh)) = Some enc /\
    expected_frames (fst (load Stub.env Stub.fresh)) =
      match enc_input_shape enc with
      | Some (_ :: _ :: DimInt n :: _) => if n =? 0 then 3000 else n
      | _ => 3000
      end /\
    expected_frames (fst (load Stub.env Stub.fresh)) <> 0.
Proof.
  assert (H : snd (@load Stub.runtime Stub.env Stub.fresh) = Ok true) by reflexivity.
  split; [exact H|].
  exact (@expected_frames_after_load Stub.runtime Stub.env Stub.fresh H).
Defined.
End ScriptedLaws.
